(** * ethq: per-queue NIC statistics — queue index map and delta engine

    Shallow embedding of [src/ethq.cc] (class [EthQApp] and [main]).

    Conventions of the embedding
    - [size_t], [uint64_t]: integers in [0, 2^64) as [Z], wrap-around
      written out with [wrap64]; [int64_t] through [to_int64]; [int]
      (the result of [std::stoi]) as a [Z] in [INT_MIN, INT_MAX].
    - positions inside a string and in the name list, loop counters and the
      [uint8_t] slot offset (never above 3): [nat].
    - [std::string] is [string]; [find], [substr] are Stdlib's [index] and
      [substring] with the C++ out-of-range rule added.
    - [std::vector] is a list of elements with a capacity; the unchecked
      [operator[]] is a lookup that yields [Undefined] outside [size()].
    - [std::map<size_t, queue_entry_t>] is an association list kept in
      ascending key order, which is the order a range-for visits it in.
    - a C++ computation is a [result]: a value, a thrown exception, or
      undefined behaviour (an out of bounds subscript).
    - allocation is taken to succeed; the text of [what()] for the
      exceptions of [std::stoi] is the one of libstdc++, and [isspace] is
      the one of the "C" locale. *)

From Stdlib Require Import ZArith Lia Ascii String.
From stdpp Require Import base tactics option list strings.

Local Open Scope string_scope.
Local Open Scope list_scope.
Local Open Scope Z_scope.

(** ** Outcomes of C++ code *)

Inductive exn : Type :=
  | invalid_argument (what : string)
  | out_of_range (what : string)
  | runtime_error (what : string).

Definition what (e : exn) : string :=
  match e with
  | invalid_argument w | out_of_range w | runtime_error w => w
  end.

(** The subscripted objects of the program. *)
Inductive buffer : Type :=
  | BufRaw | BufResults | BufStats | BufPrev | BufDelta | BufCounts.

Inductive result (A : Type) : Type :=
  | Ok (a : A)
  | Throw (e : exn)
  | Undefined (b : buffer) (i : nat).
Arguments Ok {A} a.
Arguments Throw {A} e.
Arguments Undefined {A} b i.

#[global] Instance result_bind : MBind result := fun A B k r =>
  match r with
  | Ok a => k a
  | Throw e => Throw e
  | Undefined b i => Undefined b i
  end.

(** Unchecked subscript of buffer [b]: outside the size it is undefined. *)
Definition subscript {A : Type} (b : buffer) (l : list A) (i : nat) : result A :=
  match l !! i with
  | Some x => Ok x
  | None => Undefined b i
  end.

(** [for (size_t i = 0; i < n; ++i) body], from counter value [i]. *)
Fixpoint for_from {St : Type} (i n : nat) (body : nat -> St -> result St) (s : St)
  : result St :=
  match n with
  | O => Ok s
  | S n' => s' ← body i s; for_from (S i) n' body s'
  end.

Definition for_loop {St : Type} (n : nat) (body : nat -> St -> result St) (s : St)
  : result St := for_from 0 n body s.

(** ** Machine integers *)

Definition two64 : Z := 2 ^ 64.
Definition wrap64 (x : Z) : Z := x mod two64.
Definition to_int64 (x : Z) : Z :=
  let u := wrap64 x in if u <? 2 ^ 63 then u else u - two64.

Definition INT_MAX : Z := 2147483647.
Definition INT_MIN : Z := -2147483648.
Definition EXIT_FAILURE : Z := 1.

(** ** std::string *)

(** [s.find(pat, pos)]; [None] is [std::string::npos]. *)
Definition find (pat : string) (pos : nat) (s : string) : option nat :=
  String.index pos pat s.

(** [s.substr(pos, count)]; throws when [pos > size()]. *)
Definition substr (pos count : nat) (s : string) : result string :=
  if (pos <=? String.length s)%nat then Ok (String.substring pos count s)
  else Throw (out_of_range "basic_string::substr").

(** [s.substr(pos)] *)
Definition substr_from (pos : nat) (s : string) : result string :=
  substr pos (String.length s - pos) s.

(** ** std::stoi (base 10, "C" locale) *)

Definition isspace (c : ascii) : bool :=
  let n := nat_of_ascii c in ((n =? 32) || ((9 <=? n) && (n <=? 13)))%nat.

Definition isdigit (c : ascii) : bool :=
  let n := nat_of_ascii c in ((48 <=? n) && (n <=? 57))%nat.

Definition digit_value (c : ascii) : Z := Z.of_nat (nat_of_ascii c) - 48.

(** number of leading white-space characters *)
Fixpoint skip_space (s : string) : nat :=
  match s with
  | String c s' => if isspace c then S (skip_space s') else O
  | EmptyString => O
  end.

(** value and length of the leading run of decimal digits *)
Fixpoint digit_run (s : string) (acc : Z) : Z * nat :=
  match s with
  | String c s' =>
      if isdigit c then
        let '(v, n) := digit_run s' (10 * acc + digit_value c) in (v, S n)
      else (acc, O)
  | EmptyString => (acc, O)
  end.

Fixpoint drop_chars (n : nat) (s : string) : string :=
  match n, s with
  | S n', String _ s' => drop_chars n' s'
  | _, _ => s
  end.

(** [std::stoi(s, &eon)]: the converted [int] and the number of characters
    consumed. White space and one sign may precede the digits; no digit
    gives [invalid_argument], a value outside [int] gives [out_of_range]. *)
Definition stoi (s : string) : result (Z * nat) :=
  let ws := skip_space s in
  let s1 := drop_chars ws s in
  let '(neg, sg) :=
    match s1 with
    | String "-" _ => (true, 1%nat)
    | String "+" _ => (false, 1%nat)
    | _ => (false, 0%nat)
    end in
  let '(v, nd) := digit_run (drop_chars sg s1) 0 in
  if (nd =? 0)%nat then Throw (invalid_argument "stoi")
  else
    let v' := if neg : bool then - v else v in
    if (v' <? INT_MIN) || (INT_MAX <? v') then Throw (out_of_range "stoi")
    else Ok (v', (ws + sg + nd)%nat).

(** ** Data of ethq.cc *)

(** [queuestats_t]: the union of [counts[4]] with the four named fields. *)
Record queuestats_t : Type := QueueStats {
  tx_packets : Z;
  rx_packets : Z;
  tx_bytes : Z;
  rx_bytes : Z
}.

Definition zero_stats : queuestats_t := QueueStats 0 0 0 0.

(** [q.counts[j]] *)
Definition counts_get (q : queuestats_t) (j : nat) : result Z :=
  match j with
  | 0%nat => Ok (tx_packets q)
  | 1%nat => Ok (rx_packets q)
  | 2%nat => Ok (tx_bytes q)
  | 3%nat => Ok (rx_bytes q)
  | _ => Undefined BufCounts j
  end.

(** [q.counts[j] = v] *)
Definition counts_set (q : queuestats_t) (j : nat) (v : Z) : result queuestats_t :=
  match j with
  | 0%nat => Ok (QueueStats v (rx_packets q) (tx_bytes q) (rx_bytes q))
  | 1%nat => Ok (QueueStats (tx_packets q) v (tx_bytes q) (rx_bytes q))
  | 2%nat => Ok (QueueStats (tx_packets q) (rx_packets q) v (rx_bytes q))
  | 3%nat => Ok (QueueStats (tx_packets q) (rx_packets q) (tx_bytes q) v)
  | _ => Undefined BufCounts j
  end.

(** [std::vector<queuestats_t>] *)
Record stats_list_t : Type := Vector {
  elems : list queuestats_t;
  capacity : nat
}.

Definition size (v : stats_list_t) : nat := length (elems v).

(** default constructor: empty *)
Definition vector_empty : stats_list_t := Vector [] 0.

(** [stats_list_t v(n)]: [n] value-initialised (zero) elements *)
Definition vector_n (n : nat) : stats_list_t := Vector (replicate n zero_stats) n.

(** [v.reserve(n)]: storage for [n] elements; the elements and [size()] are
    unchanged. *)
Definition reserve (n : nat) (v : stats_list_t) : stats_list_t :=
  Vector (elems v) (Nat.max n (capacity v)).

(** [v[i]] *)
Definition vector_get (b : buffer) (v : stats_list_t) (i : nat) : result queuestats_t :=
  subscript b (elems v) i.

(** [v[i].counts[j] = x] *)
Definition vector_set_count (b : buffer) (v : stats_list_t) (i j : nat) (x : Z)
  : result stats_list_t :=
  q ← vector_get b v i;
  q' ← counts_set q j x;
  Ok (Vector (<[i := q']> (elems v)) (capacity v)).

(** [queue_entry_t]: index to queue table, offset to value within *)
Definition queue_entry_t : Type := Z * nat.

(** [queue_map_t]: string entry number -> queue_entry_t, ascending keys *)
Definition queue_map_t : Type := list (nat * queue_entry_t).

(** [m[k] = v] *)
Fixpoint map_assign (k : nat) (v : queue_entry_t) (m : queue_map_t) : queue_map_t :=
  match m with
  | [] => [(k, v)]
  | (k', v') :: m' =>
      if (k <? k')%nat then (k, v) :: m
      else if (k =? k')%nat then (k, v) :: m'
      else (k', v') :: map_assign k v m'
  end.

Fixpoint map_find (k : nat) (m : queue_map_t) : option queue_entry_t :=
  match m with
  | [] => None
  | (k', v') :: m' => if (k =? k')%nat then Some v' else map_find k m'
  end.

(** The data members of [EthQApp] that the statistics code uses. *)
Record EthQApp : Type := App {
  qmap : queue_map_t;
  qcount : Z;
  prev : stats_list_t;
  delta : stats_list_t;
  total : queuestats_t
}.

(** [EthQApp::EthQApp()]: [qcount(0)], empty containers. [total] has no
    initialiser; it is written before it is read. *)
Definition EthQApp_new : EthQApp := App [] 0 vector_empty vector_empty zero_stats.

(** ** EthQApp::build_queue_map *)

(** Lines 82-108 of the loop body for one name: [Ok None] is [continue],
    [Ok (Some (queue, offset))] reaches "and populate it". *)
Definition scan_name (name : string) : result (option queue_entry_t) :=
  let tx := bool_decide (find "tx-" 0 name = Some 0%nat) in
  let rx := bool_decide (find "rx-" 0 name = Some 0%nat) in
  if negb (rx || tx) then Ok None else
  match find "." 3 name with
  | None => Ok None
  | Some dot =>
      tmp ← substr 3 (dot - 3) name;
      '(n, eon) ← stoi tmp;
      let queue := wrap64 n in
      if (eon <? String.length tmp)%nat then Ok None else
      match find "_" (dot + 3) name with
      | None => Ok None
      | Some under =>
          type ← substr_from (under + 1) name;
          let offset := 0%nat in
          let offset := if rx then (offset + 1)%nat else offset in
          let offset := if bool_decide (type = "bytes") then (offset + 2)%nat else offset in
          Ok (Some (queue, offset))
      end
  end.

(** One iteration, for [name = names[i]]. *)
Definition build_queue_map_body (i : nat) (name : string) (app : EthQApp)
  : result EthQApp :=
  e ← scan_name name;
  match e with
  | None => Ok app
  | Some (queue, offset) =>
      Ok (App (map_assign i (queue, offset) (qmap app))
              (Z.max (wrap64 (queue + 1)) (qcount app))
              (prev app) (delta app) (total app))
  end.

(** [names[i]] is within the list for every [i < names.size()]. *)
Definition build_queue_map (names : list string) (app : EthQApp) : result EthQApp :=
  for_loop (length names)
    (fun i app =>
       match names !! i with
       | Some name => build_queue_map_body i name app
       | None => Ok app
       end) app.

(** ** EthQApp::get_stats *)

(** [for (const auto x : l) body] *)
Fixpoint for_each {A St : Type} (l : list A) (body : A -> St -> result St) (s : St)
  : result St :=
  match l with
  | [] => Ok s
  | x :: l' => s' ← body x s; for_each l' body s'
  end.

(** [raw] is the array that [ethtool->stats()] returned; the call itself is
    made where [get_stats] and [get_deltas] are called ([run], [poll]), and
    an exception of it propagates from there. The right operand [raw[id]]
    of the assignment is evaluated before the left one. *)
Definition get_stats_body (raw : list Z) (pair : nat * queue_entry_t)
    (results : stats_list_t) : result stats_list_t :=
  let id := pair.1 in
  let entry := pair.2 in
  let queue := entry.1 in
  let offset := entry.2 in
  v ← subscript BufRaw raw id;
  vector_set_count BufResults results (Z.to_nat queue) offset v.

Definition get_stats (raw : list Z) (app : EthQApp) : result stats_list_t :=
  let results := vector_n (Z.to_nat (qcount app)) in
  for_each (qmap app) (get_stats_body raw) results.

(** ** EthQApp::get_deltas *)

Definition get_deltas (raw : list Z) (app : EthQApp) : result EthQApp :=
  stats ← get_stats raw app;
  total ← for_loop 4 (fun j total => counts_set total j 0) (total app);
  '(delta, total) ←
    for_loop (Z.to_nat (qcount app))
      (fun i =>
         for_loop 4
           (fun j '(delta, total) =>
              s ← vector_get BufStats stats i;
              sj ← counts_get s j;
              p ← vector_get BufPrev (prev app) i;
              pj ← counts_get p j;
              let d := to_int64 (wrap64 (sj - pj)) in
              delta ← vector_set_count BufDelta delta i j (wrap64 d);
              tj ← counts_get total j;
              total ← counts_set total j (wrap64 (tj + d));
              Ok (delta, total)))
      (delta app, total);
  (* std::swap(stats, prev) *)
  Ok (App (qmap app) (qcount app) stats delta total).

(** ** The statistics source *)

(** Modelled from the spec: class [Ethtool] ([ethtool++.h] is not among the
    sources). Section 6: the ordered counter names, read once at startup, and
    on demand an array of 64-bit counter values in the same order; both may
    fail. [stats n] is the result of the [n]-th call of [stats()]. The two
    arrays are subscripted with the unchecked [operator[]] in ethq.cc. *)
Record Ethtool : Type := {
  stringset : result (list string);
  stats : nat -> result (list Z)
}.

(** [new Ethtool(ifname)] *)
Definition world : Type := string -> result Ethtool.

(** ** EthQApp::handleArgs *)

(** [argv] includes the program name, [argc = length argv]. *)
Definition handleArgs (open : world) (argv : list string) (app : EthQApp)
  : result (Ethtool * EthQApp) :=
  match argv with
  | [_; ifname] =>
      ethtool ← open ifname;
      names ← stringset ethtool;
      app ← build_queue_map names app;
      if qcount app =? 0 then Throw (runtime_error "No NIC queues found")
      else
        Ok (ethtool,
            App (qmap app) (qcount app) (prev app)
                (reserve (Z.to_nat (qcount app)) (delta app)) (total app))
  | _ => Throw (runtime_error "usage: ethq <interface>")
  end.

(** ** EthQApp::redraw, EthQApp::run and main *)

Inductive event : Type :=
  | EvStderr (line : string)
  | EvTick (n : nat)
  | EvFrame (rows : list queuestats_t) (totals : queuestats_t).

(** The rows that [redraw] prints: [delta[i].counts] for [i < qcount], then
    [total.counts]. *)
Definition redraw (app : EthQApp) : result event :=
  rows ← for_loop (Z.to_nat (qcount app))
            (fun i (rows : list queuestats_t) =>
               q ← vector_get BufDelta (delta app) i; Ok (rows ++ [q]))
            [];
  Ok (EvFrame rows (total app)).

Definition is_quit (key : option ascii) : bool :=
  match key with
  | Some ch => bool_decide (ch = "q"%char) || bool_decide (ch = "Q"%char)
  | None => false
  end.

(** One pass of the [while (true)] body per element of [keys]: the key that
    [getch] returns in that tick when one is pending. [None] as the result
    means the loop is still polling when [keys] ends. *)
Fixpoint poll (ethtool : Ethtool) (keys : list (option ascii)) (n : nat) (app : EthQApp)
  : list event * option (result Z) :=
  match keys with
  | [] => ([], None)
  | key :: keys' =>
      match (raw ← stats ethtool n; app' ← get_deltas raw app;
             frame ← redraw app'; Ok (app', frame)) with
      | Ok (app', frame) =>
          if is_quit key then ([EvTick n; frame], Some (Ok 0))
          else
            let '(tr, r) := poll ethtool keys' (S n) app' in
            (EvTick n :: frame :: tr, r)
      | Throw e => ([EvTick n], Some (Throw e))
      | Undefined b i => ([EvTick n], Some (Undefined b i))
      end
  end.

Definition run (ethtool : Ethtool) (keys : list (option ascii)) (app : EthQApp)
  : list event * option (result Z) :=
  match (raw ← stats ethtool 0%nat; get_stats raw app) with
  | Ok first =>
      poll ethtool keys 1
        (App (qmap app) (qcount app) first (delta app) (total app))
  | Throw e => ([], Some (Throw e))
  | Undefined b i => ([], Some (Undefined b i))
  end.

Inductive outcome : Type :=
  | Exit (res : Z)
  | Polling
  | Crash (b : buffer) (i : nat)
  | Terminate.

(** [catch (const std::exception& e)] of [main] *)
Definition report (tr : list event) (r : option (result Z)) : list event * outcome :=
  match r with
  | Some (Ok res) => (tr, Exit res)
  | Some (Throw e) => (tr ++ [EvStderr ("error: " +:+ what e)], Exit EXIT_FAILURE)
  | Some (Undefined b i) => (tr, Crash b i)
  | None => (tr, Polling)
  end.

(** Lines 250-255, [try { res = app(); } catch (...) { endwin();
    throw(std::current_exception()); }]: [app()] runs [run]. The handler
    does not rethrow the exception it caught: it throws the
    [std::exception_ptr] that [std::current_exception()] returns, an object
    that none of the three handlers of [main] catches, so [std::terminate]
    is called; no line is printed and [main] does not return. *)
Definition app_call (ethtool : Ethtool) (keys : list (option ascii)) (app : EthQApp)
  : list event * outcome :=
  let '(tr, r) := run ethtool keys app in
  match r with
  | Some (Ok res) => (tr, Exit res)
  | Some (Throw e) => (tr, Terminate)
  | Some (Undefined b i) => (tr, Crash b i)
  | None => (tr, Polling)
  end.

(** An exception of [handleArgs] is thrown outside the inner [try] and
    reaches [catch (const std::exception& e)]. *)
Definition main (open : world) (argv : list string) (keys : list (option ascii))
  : list event * outcome :=
  match handleArgs open argv EthQApp_new with
  | Ok (ethtool, app) => app_call ethtool keys app
  | Throw e => report [] (Some (Throw e))
  | Undefined b i => report [] (Some (Undefined b i))
  end.


(** ** Specification-side notions *)

(** The name converts: the loop body neither throws nor runs into undefined
    behaviour on it. *)
Definition scans (name : string) : Prop := exists e, scan_name name = Ok e.

(** The names that matched, with their positions from [i] on. *)
Fixpoint entries_from (i : nat) (names : list string) : queue_map_t :=
  match names with
  | [] => []
  | name :: rest =>
      match scan_name name with
      | Ok (Some e) => (i, e) :: entries_from (S i) rest
      | _ => entries_from (S i) rest
      end
  end.

(** The running [qcount] over the entries, from [q0]. *)
Fixpoint qcount_of (m : queue_map_t) (q0 : Z) : Z :=
  match m with
  | [] => q0
  | (_, (queue, _)) :: m' => qcount_of m' (Z.max (wrap64 (queue + 1)) q0)
  end.

(** The maximum queue index of a map (0 for the empty one). *)
Fixpoint max_queue (m : queue_map_t) : Z :=
  match m with
  | [] => 0
  | (_, (queue, _)) :: m' => Z.max queue (max_queue m')
  end.

(** The loop of [build_queue_map] by recursion on the names still to visit. *)
Fixpoint build_from (i : nat) (names : list string) (app : EthQApp) : result EthQApp :=
  match names with
  | [] => Ok app
  | name :: rest => app' ← build_queue_map_body i name app; build_from (S i) rest app'
  end.

(** [q.counts[j]] and [q.counts[j] = v] as total functions (for [j < 4]). *)
Definition count_of (q : queuestats_t) (j : nat) : Z :=
  match counts_get q j with Ok v => v | _ => 0 end.

Definition set_count (q : queuestats_t) (j : nat) (v : Z) : queuestats_t :=
  match counts_set q j v with Ok q' => q' | _ => q end.

(** [l[q].counts[j]] *)
Definition cell (l : list queuestats_t) (q j : nat) : Z :=
  match l !! q with Some s => count_of s j | None => 0 end.

(** The source position whose counter ends up in slot [(queue, slot)]: the
    last one in the order of the map that is recorded for that slot. *)
Fixpoint last_source (m : queue_map_t) (queue : Z) (slot : nat) : option nat :=
  match m with
  | [] => None
  | (id, (q, o)) :: m' =>
      match last_source m' queue slot with
      | Some id' => Some id'
      | None => if bool_decide (q = queue /\ o = slot) then Some id else None
      end
  end.

(** The map is usable with [n] queues and a raw array of [len] counters:
    every subscript of [get_stats] is within bounds. *)
Definition fits (len n : nat) (m : queue_map_t) : Prop :=
  Forall (fun e => (e.1 < len)%nat /\ 0 <= e.2.1 /\ (Z.to_nat e.2.1 < n)%nat /\ (e.2.2 <= 3)%nat) m.

(** Keys in strictly ascending order, the order of a [std::map]. *)
Fixpoint ascending (m : queue_map_t) : Prop :=
  match m with
  | [] => True
  | (k, _) :: m' => Forall (fun e => (k < e.1)%nat) m' /\ ascending m'
  end.

(** The [int64_t d] of [get_deltas] for slot [j] of a current row [s] and a
    previous row [p]. *)
Definition diff (s p : queuestats_t) (j : nat) : Z :=
  to_int64 (wrap64 (count_of s j - count_of p j)).

(** The row that [get_deltas] stores in [delta[i]]. *)
Definition delta_row (s p : queuestats_t) : queuestats_t :=
  QueueStats (wrap64 (diff s p 0)) (wrap64 (diff s p 1))
             (wrap64 (diff s p 2)) (wrap64 (diff s p 3)).

(** [total.counts[j] += d] for the four slots of one row. *)
Definition add_row (t s p : queuestats_t) : queuestats_t :=
  QueueStats (wrap64 (tx_packets t + diff s p 0)) (wrap64 (rx_packets t + diff s p 1))
             (wrap64 (tx_bytes t + diff s p 2)) (wrap64 (rx_bytes t + diff s p 3)).

(** [total] after the rows [0 .. k-1]. *)
Fixpoint totals_upto (k : nat) (stats prev : list queuestats_t) : queuestats_t :=
  match k with
  | O => zero_stats
  | S k' =>
      match stats !! k', prev !! k' with
      | Some s, Some p => add_row (totals_upto k' stats prev) s p
      | _, _ => totals_upto k' stats prev
      end
  end.

(** Every character of the string is a decimal digit. *)
Fixpoint all_digits (s : string) : bool :=
  match s with
  | EmptyString => true
  | String c s' => isdigit c && all_digits s'
  end.

(** The string does not start with a decimal digit. *)
Definition no_leading_digit (s : string) : bool :=
  match s with
  | EmptyString => true
  | String c _ => negb (isdigit c)
  end.

(** The sum of [f 0 .. f (k-1)]. *)
Fixpoint sum_upto (k : nat) (f : nat -> Z) : Z :=
  match k with
  | O => 0
  | S k' => sum_upto k' f + f k'
  end.

(** The buffers of a tick hold a row for every queue: [get_deltas] subscripts
    [prev[i]] and [delta[i]] for [i < qcount]. *)
Definition ready (app : EthQApp) : Prop :=
  (Z.to_nat (qcount app) <= size (prev app))%nat /\
  (Z.to_nat (qcount app) <= size (delta app))%nat.

(** The passes of the polling loop recorded in a trace. *)
Definition is_tick (e : event) : bool :=
  match e with EvTick _ => true | _ => false end.

Definition ticks (tr : list event) : nat := length (filter (fun e => is_tick e = true) tr).

(** Every call of [stats()] returns an array that the map fits. *)
Definition steady (ethtool : Ethtool) (app : EthQApp) : Prop :=
  forall n, exists raw,
    stats ethtool n = Ok raw /\
    fits (length raw) (Z.to_nat (qcount app)) (qmap app).

(** * Theorems *)

(** Case analysis on a slot number: 0, 1, 2, 3 and the numbers from 4 on. *)
Ltac slot_cases j := destruct j as [|[|[|[|j]]]].

(** ** Loops *)

Lemma bind_ok {A B : Type} (r : result A) (k : A -> result B) (b : B) :
  (x ← r; k x) = Ok b -> exists a, r = Ok a /\ k a = Ok b.
Proof. destruct r as [a| |]; simpl; [eauto | discriminate | discriminate]. Qed.

Lemma for_from_invariant {St : Type} (P : nat -> St -> Prop)
    (body : nat -> St -> result St) (n : nat) :
  forall (i : nat) (s : St),
    P i s ->
    (forall k s, (i <= k < i + n)%nat -> P k s -> exists s', body k s = Ok s' /\ P (S k) s') ->
    exists s', for_from i n body s = Ok s' /\ P (i + n)%nat s'.
Proof.
  induction n as [|n IH]; intros i s HP Hstep; simpl.
  - exists s. rewrite Nat.add_0_r. auto.
  - destruct (Hstep i s ltac:(lia) HP) as (s1 & Hb & HP1). rewrite Hb. simpl.
    destruct (IH (S i) s1 HP1) as (s2 & Hf & HP2).
    + intros k s0 Hk. apply Hstep. lia.
    + exists s2. split; [exact Hf|]. replace (i + S n)%nat with (S i + n)%nat by lia. exact HP2.
Qed.

Lemma for_from_list {A St : Type} (f : nat -> A -> St -> result St) (l : list A) :
  forall (pre : list A) (s : St),
    for_from (length pre) (length l)
      (fun i s => match (pre ++ l) !! i with Some x => f i x s | None => Ok s end) s
    = (fix go (i : nat) (l : list A) (s : St) : result St :=
         match l with
         | [] => Ok s
         | x :: l' => s' ← f i x s; go (S i) l' s'
         end) (length pre) l s.
Proof.
  induction l as [|x l IH]; intros pre s; simpl; [reflexivity|].
  rewrite list_lookup_middle by reflexivity.
  destruct (f (length pre) x s) as [s1| |]; simpl; try reflexivity.
  specialize (IH (pre ++ [x]) s1).
  rewrite length_app in IH. simpl in IH. rewrite Nat.add_1_r in IH.
  rewrite <- app_assoc in IH. simpl in IH. rewrite IH. reflexivity.
Qed.

Lemma build_queue_map_unfold (names : list string) (app : EthQApp) :
  build_queue_map names app = build_from 0 names app.
Proof.
  unfold build_queue_map, for_loop.
  pose proof (for_from_list build_queue_map_body names [] app) as H.
  simpl in H. rewrite H. clear H.
  generalize 0%nat. revert app.
  induction names as [|n names IH]; intros app i; simpl; [reflexivity|].
  destruct (build_queue_map_body i n app); simpl; auto.
Qed.

(** ** The index map built by build_queue_map *)

Lemma map_assign_last (k : nat) (v : queue_entry_t) (m : queue_map_t) :
  Forall (fun e => (e.1 < k)%nat) m -> map_assign k v m = m ++ [(k, v)].
Proof.
  induction m as [|[k' v'] m IH]; intros H; simpl; [reflexivity|].
  inversion H as [|? ? Hk Hm]; subst. simpl in Hk.
  destruct (Nat.ltb_spec k k'); [lia|].
  destruct (Nat.eqb_spec k k'); [lia|].
  rewrite IH by exact Hm. reflexivity.
Qed.

Lemma build_from_ok (names : list string) :
  forall (i : nat) (app : EthQApp),
    Forall scans names ->
    Forall (fun e => (e.1 < i)%nat) (qmap app) ->
    build_from i names app
    = Ok (App (qmap app ++ entries_from i names)
              (qcount_of (entries_from i names) (qcount app))
              (prev app) (delta app) (total app)).
Proof.
  induction names as [|name rest IH]; intros i app Hs Hk; simpl.
  - rewrite app_nil_r. destruct app; reflexivity.
  - inversion Hs as [|? ? [e He] Hrest]; subst.
    unfold build_queue_map_body. rewrite He. simpl.
    destruct e as [[queue offset]|]; simpl.
    + rewrite IH; simpl; [|exact Hrest|].
      * rewrite map_assign_last by exact Hk. rewrite <- app_assoc. reflexivity.
      * rewrite map_assign_last by exact Hk. apply Forall_app. split.
        -- eapply Forall_impl; [exact Hk|]. intros; simpl in *; lia.
        -- constructor; [simpl; lia|constructor].
    + apply IH; [exact Hrest|]. eapply Forall_impl; [exact Hk|]. intros; simpl in *; lia.
Qed.

Lemma build_from_scans (names : list string) :
  forall (i : nat) (app app' : EthQApp),
    build_from i names app = Ok app' -> Forall scans names.
Proof.
  induction names as [|name rest IH]; intros i app app' H; [constructor|].
  simpl in H. apply bind_ok in H. destruct H as (app1 & Hb & Hr).
  constructor; [|eapply IH; exact Hr].
  unfold build_queue_map_body in Hb. apply bind_ok in Hb.
  destruct Hb as (e & He & _). exists e. exact He.
Qed.

Lemma build_from_throw (pre : list string) :
  forall (i : nat) (app : EthQApp) (name : string) (post : list string) (e : exn),
    Forall scans pre ->
    scan_name name = Throw e ->
    build_from i (pre ++ name :: post) app = Throw e.
Proof.
  induction pre as [|p pre IH]; intros i app name post e Hs Ht; simpl.
  - unfold build_queue_map_body. rewrite Ht. reflexivity.
  - inversion Hs as [|? ? [r Hr] Hpre]; subst.
    unfold build_queue_map_body at 1. rewrite Hr. simpl.
    destruct r as [[queue offset]|]; simpl; apply IH; assumption.
Qed.

Lemma build_queue_map_ok (names : list string) :
  Forall scans names ->
  build_queue_map names EthQApp_new
  = Ok (App (entries_from 0 names) (qcount_of (entries_from 0 names) 0)
            vector_empty vector_empty zero_stats).
Proof.
  intros Hs. rewrite build_queue_map_unfold.
  rewrite build_from_ok; [reflexivity|exact Hs|constructor].
Qed.

Lemma build_queue_map_inv (names : list string) (app : EthQApp) :
  build_queue_map names EthQApp_new = Ok app ->
  Forall scans names /\
  app = App (entries_from 0 names) (qcount_of (entries_from 0 names) 0)
            vector_empty vector_empty zero_stats.
Proof.
  intros H. assert (Hs : Forall scans names).
  { rewrite build_queue_map_unfold in H. eapply build_from_scans; exact H. }
  split; [exact Hs|]. rewrite build_queue_map_ok in H by exact Hs. congruence.
Qed.

(** The entry recorded for position [k], if any. *)
Lemma map_find_entries_from (names : list string) :
  forall (i k : nat),
    map_find k (entries_from i names)
    = if (i <=? k)%nat then
        match names !! (k - i)%nat with
        | Some name =>
            match scan_name name with Ok (Some e) => Some e | _ => None end
        | None => None
        end
      else None.
Proof.
  induction names as [|name rest IH]; intros i k; simpl.
  - destruct (i <=? k)%nat; reflexivity.
  - assert (Hrest : map_find k (entries_from (S i) rest)
                    = if (i <=? k)%nat then
                        if (k =? i)%nat then None
                        else match rest !! (k - S i)%nat with
                             | Some name =>
                                 match scan_name name with
                                 | Ok (Some e) => Some e | _ => None end
                             | None => None
                             end
                      else None).
    { rewrite IH. destruct (Nat.leb_spec (S i) k), (Nat.leb_spec i k),
        (Nat.eqb_spec k i); try lia; reflexivity. }
    destruct (Nat.leb_spec i k) as [Hle|Hlt].
    + destruct (Nat.eqb_spec k i) as [Heq|Hne].
      * subst k. rewrite Nat.sub_diag. simpl.
        destruct (scan_name name) as [[e|]| |]; simpl;
          rewrite ?Nat.eqb_refl; try reflexivity; exact Hrest.
      * replace (k - i)%nat with (S (k - S i)) by lia. simpl.
        destruct (scan_name name) as [[e|]| |]; simpl; try exact Hrest.
        destruct (Nat.eqb_spec k i); [lia|]. exact Hrest.
    + destruct (scan_name name) as [[e|]| |]; simpl; try exact Hrest.
      destruct (Nat.eqb_spec k i); [lia|]. exact Hrest.
Qed.

Lemma entries_from_keys (names : list string) :
  forall (i : nat),
    Forall (fun e => (i <= e.1 < i + length names)%nat) (entries_from i names).
Proof.
  induction names as [|name rest IH]; intros i; simpl; [constructor|].
  assert (H : Forall (fun e => (i <= e.1 < i + S (length rest))%nat)
                (entries_from (S i) rest)).
  { eapply Forall_impl; [apply IH|]. intros; simpl in *; lia. }
  destruct (scan_name name) as [[e|]| |]; try exact H.
  constructor; [simpl; lia|exact H].
Qed.

(** ** Machine integers *)

Lemma wrap64_range (x : Z) : 0 <= wrap64 x < two64.
Proof. unfold wrap64, two64. apply Z.mod_pos_bound. reflexivity. Qed.

Lemma wrap64_small (x : Z) : 0 <= x < two64 -> wrap64 x = x.
Proof. intros H. unfold wrap64. apply Z.mod_small. exact H. Qed.

Lemma wrap64_idem (x : Z) : wrap64 (wrap64 x) = wrap64 x.
Proof. apply wrap64_small, wrap64_range. Qed.

Lemma to_int64_range (x : Z) : - 2 ^ 63 <= to_int64 x < 2 ^ 63.
Proof.
  unfold to_int64. pose proof (wrap64_range x) as H. unfold two64 in *.
  destruct (Z.ltb_spec (wrap64 x) (2 ^ 63)); lia.
Qed.

Lemma to_int64_wrap64 (x : Z) : to_int64 (wrap64 x) = to_int64 x.
Proof. unfold to_int64. rewrite wrap64_idem. reflexivity. Qed.

Lemma wrap64_to_int64 (x : Z) : wrap64 (to_int64 x) = wrap64 x.
Proof.
  unfold to_int64. destruct (Z.ltb_spec (wrap64 x) (2 ^ 63)).
  - apply wrap64_idem.
  - unfold wrap64 at 1. unfold two64 at 1 2.
    replace (wrap64 x - 2 ^ 64) with (wrap64 x + (-1) * 2 ^ 64) by lia.
    rewrite Z.mod_add by lia. apply wrap64_idem.
Qed.

(** ** std::string *)

Lemma find_at_0_prefix (pat s : string) :
  find pat 0 s = Some 0%nat <-> String.prefix pat s = true.
Proof.
  unfold find. destruct s as [|c s]; simpl.
  - destruct pat; simpl; split; congruence.
  - destruct pat as [|p pat]; simpl; [split; reflexivity|].
    destruct (ascii_dec p c) as [->|Hne].
    + destruct (String.prefix pat s); [split; reflexivity|].
      destruct (String.index 0 (String c pat) s); split; congruence.
    + destruct (String.index 0 (String p pat) s); split; congruence.
Qed.

Lemma prefix_rx_tx (s : string) :
  String.prefix "rx-" s = true -> String.prefix "tx-" s = false.
Proof.
  destruct s as [|c s]; cbn [String.prefix]; [discriminate|].
  destruct (ascii_dec "r" c) as [<-|]; [|discriminate]. intros _.
  destruct (ascii_dec "t" "r"); [discriminate|reflexivity].
Qed.

(** ** Queue count *)

Lemma qcount_of_max (m : queue_map_t) :
  forall (q0 : Z),
    Forall (fun e => 0 <= e.2.1 < two64 - 1) m ->
    0 <= q0 ->
    qcount_of m q0
    = match m with [] => q0 | _ => Z.max q0 (1 + max_queue m) end.
Proof.
  induction m as [|[k [queue offset]] m IH]; intros q0 Hm Hq; [reflexivity|].
  inversion Hm as [|? ? Hk Hrest]; subst. simpl in Hk.
  cbn [qcount_of max_queue]. rewrite wrap64_small by lia.
  rewrite IH by (try exact Hrest; lia).
  destruct m as [|e m']; [simpl; lia|].
  assert (0 <= max_queue (e :: m')).
  { clear. generalize (e :: m'). intros l. induction l as [|[? [? ?]] l IHl]; simpl; lia. }
  lia.
Qed.

Lemma max_queue_bound (m : queue_map_t) (k : nat) (queue : Z) (offset : nat) :
  map_find k m = Some (queue, offset) -> queue <= max_queue m.
Proof.
  induction m as [|[k' [q' o']] m IH]; simpl; [discriminate|].
  destruct (k =? k')%nat; intros H.
  - injection H as -> ->. lia.
  - specialize (IH H). lia.
Qed.

Lemma scan_name_range (name : string) (queue : Z) (offset : nat) :
  scan_name name = Ok (Some (queue, offset)) ->
  0 <= queue < two64 /\ (offset <= 3)%nat.
Proof.
  unfold scan_name. intros H.
  destruct (negb _); [discriminate|].
  destruct (find "." 3 name) as [dot|]; [|discriminate].
  apply bind_ok in H. destruct H as (tmp & _ & H).
  apply bind_ok in H. destruct H as ([n eon] & _ & H).
  destruct (eon <? _)%nat; [discriminate|].
  destruct (find "_" (dot + 3) name) as [under|]; [|discriminate].
  apply bind_ok in H. destruct H as (type & _ & H).
  injection H as <- <-. split; [apply wrap64_range|].
  destruct (bool_decide _), (bool_decide _); simpl; lia.
Qed.

Lemma entries_from_range (names : list string) :
  forall (i : nat),
    Forall (fun e => 0 <= e.2.1 < two64 /\ (e.2.2 <= 3)%nat) (entries_from i names).
Proof.
  induction names as [|name rest IH]; intros i; simpl; [constructor|].
  destruct (scan_name name) as [[[queue offset]|]| |] eqn:E; try apply IH.
  constructor; [|apply IH]. simpl. eapply scan_name_range. exact E.
Qed.

(** Away from the one queue index whose successor wraps to zero, the
    discovered count is one plus the maximum index, and zero for no entry. *)
Lemma build_queue_map_qcount (names : list string) (app : EthQApp) :
  build_queue_map names EthQApp_new = Ok app ->
  Forall (fun e => e.2.1 <> two64 - 1) (qmap app) ->
  qcount app = match qmap app with [] => 0 | _ => 1 + max_queue (qmap app) end.
Proof.
  intros H Hne. apply build_queue_map_inv in H. destruct H as [_ ->].
  simpl in *. rewrite qcount_of_max; [|
    |lia].
  - destruct (entries_from 0 names) as [|e m]; [reflexivity|].
    assert (0 <= max_queue (e :: m)).
    { clear. generalize (e :: m). intros l. induction l as [|[? [? ?]] l IHl]; simpl; lia. }
    lia.
  - pose proof (entries_from_range names 0) as Hr.
    rewrite Forall_forall in *. intros e He.
    specialize (Hr e He). specialize (Hne e He). simpl in *. lia.
Qed.

(** ** Names accepted by the loop body *)

Lemma find_flag (pat name : string) :
  bool_decide (find pat 0 name = Some 0%nat) = String.prefix pat name.
Proof.
  destruct (String.prefix pat name) eqn:E.
  - apply bool_decide_eq_true_2, find_at_0_prefix, E.
  - apply bool_decide_eq_false_2. rewrite find_at_0_prefix. congruence.
Qed.

Lemma scan_name_accept (name : string) (queue : Z) (offset : nat) :
  scan_name name = Ok (Some (queue, offset)) ->
  exists (dot under eon : nat) (tmp kind : string) (n : Z),
    (String.prefix "rx-" name || String.prefix "tx-" name = true) /\
    find "." 3 name = Some dot /\
    substr 3 (dot - 3) name = Ok tmp /\
    stoi tmp = Ok (n, eon) /\ (String.length tmp <= eon)%nat /\
    find "_" (dot + 3) name = Some under /\
    substr_from (under + 1) name = Ok kind /\
    queue = wrap64 n /\
    offset = ((if String.prefix "rx-" name then 1 else 0)
              + (if bool_decide (kind = "bytes") then 2 else 0))%nat.
Proof.
  unfold scan_name. rewrite !find_flag. intros H.
  destruct (String.prefix "rx-" name || String.prefix "tx-" name) eqn:Hp;
    simpl in H; [|discriminate].
  destruct (find "." 3 name) as [dot|] eqn:Hdot; [|discriminate].
  apply bind_ok in H. destruct H as (tmp & Htmp & H).
  apply bind_ok in H. destruct H as ([n eon] & Hstoi & H).
  destruct (Nat.ltb_spec eon (String.length tmp)); [discriminate|].
  destruct (find "_" (dot + 3) name) as [under|] eqn:Hunder; [|discriminate].
  apply bind_ok in H. destruct H as (kind & Hkind & H).
  injection H as <- <-.
  exists dot, under, eon, tmp, kind, n.
  repeat split; try assumption; try reflexivity.
  clear. destruct (String.prefix "rx-" name), (bool_decide (kind = "bytes")); reflexivity.
Qed.

(** C4. Every name that [build_queue_map] enters in the index map starts
    with exactly one of "rx-" and "tx-"; its slot offset is 1 for "rx-" and 0
    for "tx-", plus 2 exactly when the text after the underscore is "bytes";
    the offset is one of 0, 1, 2, 3 and selects, in that order, the fields
    tx_packets, rx_packets, tx_bytes, rx_bytes of the four-entry union. *)
Theorem C4_slot_offset (names : list string) (app : EthQApp) (i : nat)
    (queue : Z) (offset : nat) :
  build_queue_map names EthQApp_new = Ok app ->
  map_find i (qmap app) = Some (queue, offset) ->
  exists (name kind : string) (dot under : nat),
    names !! i = Some name /\
    find "." 3 name = Some dot /\
    find "_" (dot + 3) name = Some under /\
    substr_from (under + 1) name = Ok kind /\
    (String.prefix "rx-" name = true /\ String.prefix "tx-" name = false \/
     String.prefix "rx-" name = false /\ String.prefix "tx-" name = true) /\
    offset = ((if String.prefix "rx-" name then 1 else 0)
              + (if bool_decide (kind = "bytes") then 2 else 0))%nat /\
    (offset = 0 \/ offset = 1 \/ offset = 2 \/ offset = 3)%nat /\
    forall q : queuestats_t,
      counts_get q offset
      = Ok (match String.prefix "rx-" name, bool_decide (kind = "bytes") with
            | false, false => tx_packets q
            | true, false => rx_packets q
            | false, true => tx_bytes q
            | true, true => rx_bytes q
            end).
Proof.
  intros Hb Hf. apply build_queue_map_inv in Hb. destruct Hb as [_ ->].
  simpl in Hf. rewrite map_find_entries_from in Hf. simpl in Hf.
  rewrite Nat.sub_0_r in Hf.
  destruct (names !! i) as [name|] eqn:Hn; [|discriminate].
  destruct (scan_name name) as [[e|]| |] eqn:Hs; try discriminate.
  injection Hf as ->.
  apply scan_name_accept in Hs.
  destruct Hs as (dot & under & eon & tmp & kind & n & Hp & Hdot & _ & _ & _ & Hu & Hk & _ & Ho).
  exists name, kind, dot, under.
  split; [reflexivity|]. split; [exact Hdot|]. split; [exact Hu|]. split; [exact Hk|].
  pose proof (prefix_rx_tx name) as Hx.
  destruct (String.prefix "rx-" name) eqn:Hrx.
  - rewrite (Hx eq_refl) in *. subst offset.
    split; [left; auto|]. split; [reflexivity|].
    destruct (bool_decide (kind = "bytes")); simpl; split; auto.
  - simpl in Hp. rewrite Hp. subst offset.
    split; [right; auto|]. split; [reflexivity|].
    destruct (bool_decide (kind = "bytes")); simpl; split; auto.
Qed.

Lemma C4_slot_offset_witness :
  exists (name kind : string) (dot under : nat),
    ["tx-0.tx_packets"; "link_down_events"; "rx-1.rx_bytes"] !! 2%nat = Some name /\
    find "." 3 name = Some dot /\
    find "_" (dot + 3) name = Some under /\
    substr_from (under + 1) name = Ok kind /\
    (String.prefix "rx-" name = true /\ String.prefix "tx-" name = false \/
     String.prefix "rx-" name = false /\ String.prefix "tx-" name = true) /\
    3%nat = ((if String.prefix "rx-" name then 1 else 0)
              + (if bool_decide (kind = "bytes") then 2 else 0))%nat /\
    (3 = 0 \/ 3 = 1 \/ 3 = 2 \/ 3 = 3)%nat /\
    forall q : queuestats_t,
      counts_get q 3
      = Ok (match String.prefix "rx-" name, bool_decide (kind = "bytes") with
            | false, false => tx_packets q
            | true, false => rx_packets q
            | false, true => tx_bytes q
            | true, true => rx_bytes q
            end).
Proof.
  apply (C4_slot_offset ["tx-0.tx_packets"; "link_down_events"; "rx-1.rx_bytes"]
           (App [(0%nat, (0, 0%nat)); (2%nat, (1, 3%nat))] 2
                vector_empty vector_empty zero_stats) 2 1 3).
  - vm_compute. reflexivity.
  - vm_compute. reflexivity.
Defined.

(** ** The union queuestats_t *)

Lemma counts_get_ok (q : queuestats_t) (j : nat) :
  (j <= 3)%nat -> counts_get q j = Ok (count_of q j).
Proof.
  intros H. unfold count_of.
  slot_cases j; try reflexivity. lia.
Qed.

Lemma counts_set_ok (q : queuestats_t) (j : nat) (v : Z) :
  (j <= 3)%nat -> counts_set q j v = Ok (set_count q j v).
Proof.
  intros H. unfold set_count.
  slot_cases j; try reflexivity. lia.
Qed.

Lemma count_of_set_count (q : queuestats_t) (j j' : nat) (v : Z) :
  (j <= 3)%nat -> (j' <= 3)%nat ->
  count_of (set_count q j v) j' = if (j' =? j)%nat then v else count_of q j'.
Proof.
  intros H H'.
  slot_cases j; [| | | |lia];
    slot_cases j'; try reflexivity; lia.
Qed.

Lemma queuestats_ext (p q : queuestats_t) :
  (forall j, (j <= 3)%nat -> count_of p j = count_of q j) -> p = q.
Proof.
  intros H. destruct p, q.
  pose proof (H 0%nat ltac:(lia)) as H0. pose proof (H 1%nat ltac:(lia)) as H1.
  pose proof (H 2%nat ltac:(lia)) as H2. pose proof (H 3%nat ltac:(lia)) as H3.
  unfold count_of in *. simpl in *. congruence.
Qed.

(** ** get_stats: the projection through the index map *)

Lemma subscript_ok {A : Type} (b : buffer) (l : list A) (i : nat) (x : A) :
  l !! i = Some x -> subscript b l i = Ok x.
Proof. intros H. unfold subscript. rewrite H. reflexivity. Qed.

Lemma subscript_undefined {A : Type} (b : buffer) (l : list A) (i : nat) :
  (length l <= i)%nat -> subscript b l i = Undefined b i.
Proof.
  intros H. unfold subscript. rewrite lookup_ge_None_2 by exact H. reflexivity.
Qed.

Lemma get_stats_body_unfold (raw : list Z) (id : nat) (queue : Z) (offset : nat)
    (results : stats_list_t) :
  get_stats_body raw (id, (queue, offset)) results
  = (v ← subscript BufRaw raw id;
     vector_set_count BufResults results (Z.to_nat queue) offset v).
Proof. reflexivity. Qed.

(** The loop of [get_stats] over a fixed raw array. *)
Section Projection.
Variable raw : list Z.

Lemma project_spec (cap : nat) (m : queue_map_t) :
  forall (results : list queuestats_t),
    fits (length raw) (length results) m ->
    exists results',
      for_each m (get_stats_body raw) (Vector results cap)
      = Ok (Vector results' cap) /\
      length results' = length results /\
      forall (q : Z) (j : nat),
        0 <= q -> (j <= 3)%nat ->
        cell results' (Z.to_nat q) j
        = match last_source m q j with
          | Some id => default 0 (raw !! id)
          | None => cell results (Z.to_nat q) j
          end.
Proof.
  induction m as [|[id [queue offset]] m IH]; intros results Hfit.
  - exists results. simpl. auto.
  - inversion Hfit as [|? ? (Hid & Hq0 & Hq & Ho) Hm]; subst. simpl in Hid, Hq0, Hq, Ho.
    destruct (lookup_lt_is_Some_2 raw id Hid) as [v Hv].
    destruct (lookup_lt_is_Some_2 results (Z.to_nat queue) Hq) as [s0 Hs0].
    cbn [for_each]. rewrite get_stats_body_unfold.
    rewrite (subscript_ok _ _ _ _ Hv). cbn [mbind result_bind].
    unfold vector_set_count, vector_get. cbn [elems capacity].
    rewrite (subscript_ok _ _ _ _ Hs0). cbn [mbind result_bind].
    rewrite counts_set_ok by exact Ho. cbn [mbind result_bind].
    destruct (IH (<[Z.to_nat queue := set_count s0 offset v]> results)) as (r' & Hr & Hlen & Hcell).
    { rewrite length_insert. exact Hm. }
    exists r'. split; [exact Hr|]. split; [rewrite Hlen; apply length_insert|].
    intros q j Hq' Hj. rewrite Hcell by assumption. cbn [last_source].
    destruct (last_source m q j) as [id'|]; [reflexivity|].
    unfold cell. case_bool_decide as Hd.
    + destruct Hd as [-> ->]. rewrite list_lookup_insert_eq by exact Hq.
      rewrite count_of_set_count by assumption. rewrite Nat.eqb_refl, Hv. reflexivity.
    + destruct (decide (Z.to_nat queue = Z.to_nat q)) as [He|Hne].
      * assert (queue = q) by lia. subst q.
        rewrite list_lookup_insert_eq by exact Hq. rewrite Hs0.
        rewrite count_of_set_count by assumption.
        destruct (Nat.eqb_spec j offset); [|reflexivity].
        exfalso. apply Hd. auto.
      * rewrite list_lookup_insert_ne by exact Hne. reflexivity.
Qed.

Lemma project_never_throws (m : queue_map_t) :
  forall (results : stats_list_t) (e : exn),
    for_each m (get_stats_body raw) results <> Throw e.
Proof.
  induction m as [|[id [queue offset]] m IH]; intros results e; [discriminate|].
  cbn [for_each]. rewrite get_stats_body_unfold.
  assert (Hsub : forall (A : Type) (b : buffer) (l : list A) (i : nat) (e : exn),
             subscript b l i <> Throw e).
  { intros A b l i e'. unfold subscript. destruct (l !! i); discriminate. }
  destruct (subscript BufRaw raw id) as [v|e'|b i] eqn:Ev; cbn [mbind result_bind];
    [|exfalso; eapply Hsub; exact Ev|discriminate].
  unfold vector_set_count, vector_get.
  destruct (subscript BufResults (elems results) (Z.to_nat queue)) as [s|e'|b i] eqn:Es;
    cbn [mbind result_bind]; [|exfalso; eapply Hsub; exact Es|discriminate].
  slot_cases offset; cbn [counts_set mbind result_bind];
    try apply IH; discriminate.
Qed.

Lemma project_reads (m : queue_map_t) :
  forall (results stats : stats_list_t),
    for_each m (get_stats_body raw) results = Ok stats ->
    Forall (fun e => (e.1 < length raw)%nat) m.
Proof.
  induction m as [|[id [queue offset]] m IH]; intros results stats H; [constructor|].
  cbn [for_each] in H. apply bind_ok in H. destruct H as (r1 & H1 & H2).
  rewrite get_stats_body_unfold in H1.
  apply bind_ok in H1. destruct H1 as (v & Hv & _).
  constructor; [|eapply IH; exact H2].
  unfold subscript in Hv. destruct (raw !! id) eqn:E; [|discriminate].
  simpl. eapply lookup_lt_Some. exact E.
Qed.

End Projection.

Lemma get_stats_ok (raw : list Z) (app : EthQApp) :
  fits (length raw) (Z.to_nat (qcount app)) (qmap app) ->
  exists stats,
    get_stats raw app = Ok stats /\
    size stats = Z.to_nat (qcount app) /\
    forall (q : Z) (j : nat),
      0 <= q -> (j <= 3)%nat ->
      cell (elems stats) (Z.to_nat q) j
      = match last_source (qmap app) q j with
        | Some id => default 0 (raw !! id)
        | None => 0
        end.
Proof.
  intros Hfit. unfold get_stats, vector_n.
  destruct (project_spec raw (Z.to_nat (qcount app)) (qmap app)
              (replicate (Z.to_nat (qcount app)) zero_stats)) as (r & Hr & Hlen & Hcell).
  { rewrite length_replicate. exact Hfit. }
  exists (Vector r (Z.to_nat (qcount app))). split; [exact Hr|].
  rewrite length_replicate in Hlen. split; [exact Hlen|].
  intros q j Hq Hj. cbn [elems]. rewrite Hcell by assumption.
  destruct (last_source (qmap app) q j); [reflexivity|].
  unfold cell. destruct (replicate _ _ !! _) as [s|] eqn:E; [|reflexivity].
  apply lookup_replicate in E. destruct E as [-> _].
  slot_cases j; reflexivity.
Qed.

(** Whatever the raw array, a projection that succeeds has [qcount] rows. *)
Lemma get_stats_size (raw : list Z) (app : EthQApp) (stats : stats_list_t) :
  get_stats raw app = Ok stats -> size stats = Z.to_nat (qcount app).
Proof.
  unfold get_stats, vector_n. generalize (Z.to_nat (qcount app)) at 2. intros cap.
  rewrite <- (length_replicate (Z.to_nat (qcount app)) zero_stats) at 2.
  generalize (replicate (Z.to_nat (qcount app)) zero_stats).
  induction (qmap app) as [|[id [queue offset]] m IH]; intros results H.
  - simpl in H. injection H as <-. reflexivity.
  - cbn [for_each fst snd] in H. apply bind_ok in H. destruct H as ([r1 c1] & H1 & H2).
    apply bind_ok in H1. destruct H1 as (v & _ & H1).
    unfold vector_set_count in H1. apply bind_ok in H1. destruct H1 as (s0 & _ & H1).
    apply bind_ok in H1. destruct H1 as (s1 & _ & H1). cbn [elems capacity] in H1.
    injection H1 as <- <-.
    rewrite (IH _ H2). apply length_insert.
Qed.

(** ** get_deltas *)

Lemma reset_total (t : queuestats_t) :
  for_loop 4 (fun j total => counts_set total j 0) t = Ok zero_stats.
Proof. reflexivity. Qed.

(** The four passes of the inner loop for row [i]. *)
Lemma delta_inner (stats prv : stats_list_t) (i : nat) (dl : list queuestats_t)
    (cap : nat) (t s p d0 : queuestats_t) :
  elems stats !! i = Some s ->
  elems prv !! i = Some p ->
  dl !! i = Some d0 ->
  for_loop 4
    (fun j '(delta, total) =>
       s ← vector_get BufStats stats i;
       sj ← counts_get s j;
       p ← vector_get BufPrev prv i;
       pj ← counts_get p j;
       let d := to_int64 (wrap64 (sj - pj)) in
       delta ← vector_set_count BufDelta delta i j (wrap64 d);
       tj ← counts_get total j;
       total ← counts_set total j (wrap64 (tj + d));
       Ok (delta, total))
    (Vector dl cap, t)
  = Ok (Vector (<[i := delta_row s p]> dl) cap, add_row t s p).
Proof.
  intros Hs Hp Hd.
  assert (Hi : (i < length dl)%nat) by (eapply lookup_lt_Some; exact Hd).
  unfold for_loop, for_from, vector_set_count, vector_get.
  rewrite !(subscript_ok _ _ _ _ Hs), !(subscript_ok _ _ _ _ Hp).
  cbn [mbind result_bind counts_get elems capacity].
  rewrite (subscript_ok _ _ _ _ Hd).
  cbn [mbind result_bind counts_get counts_set elems capacity
       tx_packets rx_packets tx_bytes rx_bytes].
  rewrite (subscript_ok BufDelta _ i _ (list_lookup_insert_eq _ _ _ Hi)).
  cbn [mbind result_bind counts_get counts_set elems capacity
       tx_packets rx_packets tx_bytes rx_bytes].
  rewrite list_insert_insert_eq.
  rewrite (subscript_ok BufDelta _ i _ (list_lookup_insert_eq _ _ _ Hi)).
  cbn [mbind result_bind counts_get counts_set elems capacity
       tx_packets rx_packets tx_bytes rx_bytes].
  rewrite list_insert_insert_eq.
  rewrite (subscript_ok BufDelta _ i _ (list_lookup_insert_eq _ _ _ Hi)).
  cbn [mbind result_bind counts_get counts_set elems capacity
       tx_packets rx_packets tx_bytes rx_bytes].
  rewrite list_insert_insert_eq.
  reflexivity.
Qed.

(** With a current sample, a previous sample and a delta buffer of [qcount]
    rows each, [get_deltas] succeeds; it stores [delta_row] in the first
    [qcount] rows of [delta], sums the rows into [total] from zero, and keeps
    the current sample as the next previous one. *)
Lemma get_deltas_ok (raw : list Z) (app : EthQApp) (stats : stats_list_t) :
  get_stats raw app = Ok stats ->
  (Z.to_nat (qcount app) <= size (prev app))%nat ->
  (Z.to_nat (qcount app) <= size (delta app))%nat ->
  exists dl,
    get_deltas raw app
    = Ok (App (qmap app) (qcount app) stats
              (Vector dl (capacity (delta app)))
              (totals_upto (Z.to_nat (qcount app)) (elems stats) (elems (prev app)))) /\
    length dl = size (delta app) /\
    (forall i s p,
        (i < Z.to_nat (qcount app))%nat ->
        elems stats !! i = Some s -> elems (prev app) !! i = Some p ->
        dl !! i = Some (delta_row s p)) /\
    (forall i, (Z.to_nat (qcount app) <= i)%nat -> dl !! i = elems (delta app) !! i).
Proof.
  intros Hst Hprev Hdelta.
  pose proof (get_stats_size _ _ _ Hst) as Hsize.
  unfold get_deltas. rewrite Hst. cbn [mbind result_bind].
  rewrite reset_total. cbn [mbind result_bind].
  set (n := Z.to_nat (qcount app)) in *.
  set (body := fun i : nat => for_loop 4 _).
  pose (P := fun (k : nat) (st : stats_list_t * queuestats_t) =>
    exists dl, st = (Vector dl (capacity (delta app)),
                     totals_upto k (elems stats) (elems (prev app))) /\
      length dl = size (delta app) /\
      (forall i s p, (i < k)%nat ->
         elems stats !! i = Some s -> elems (prev app) !! i = Some p ->
         dl !! i = Some (delta_row s p)) /\
      (forall i, (k <= i)%nat -> dl !! i = elems (delta app) !! i)).
  destruct (for_from_invariant P body n 0 (delta app, zero_stats)) as (st & Hloop & HP).
  - exists (elems (delta app)). split; [destruct (delta app); reflexivity|].
    split; [reflexivity|]. split; [intros; lia|auto].
  - intros k [dv t] Hk (dl & Heq & Hlen & Hlow & Hhigh). injection Heq as -> ->.
    unfold size in *.
    destruct (lookup_lt_is_Some_2 (elems stats) k ltac:(lia)) as [s Hs].
    destruct (lookup_lt_is_Some_2 (elems (prev app)) k ltac:(lia)) as [p Hp].
    destruct (lookup_lt_is_Some_2 dl k ltac:(lia)) as [d0 Hd].
    exists (Vector (<[k := delta_row s p]> dl) (capacity (delta app)),
            add_row (totals_upto k (elems stats) (elems (prev app))) s p).
    split; [apply (delta_inner stats (prev app) k dl _ _ s p d0 Hs Hp Hd)|].
    exists (<[k := delta_row s p]> dl).
    split; [cbn [totals_upto]; rewrite Hs, Hp; reflexivity|].
    split; [rewrite length_insert; exact Hlen|]. split.
    + intros i s' p' Hi Hs' Hp'. destruct (decide (i = k)) as [->|Hne].
      * rewrite list_lookup_insert_eq by lia. congruence.
      * rewrite list_lookup_insert_ne by auto. apply Hlow; [lia|assumption..].
    + intros i Hi. rewrite list_lookup_insert_ne by lia. apply Hhigh. lia.
  - destruct HP as (dl & -> & Hlen & Hlow & Hhigh).
    exists dl. unfold for_loop. rewrite Hloop. cbn [mbind result_bind].
    simpl. auto.
Qed.

Lemma delta_row_same (s : queuestats_t) : delta_row s s = zero_stats.
Proof. unfold delta_row, diff. rewrite !Z.sub_diag. reflexivity. Qed.

Lemma add_row_same (s : queuestats_t) : add_row zero_stats s s = zero_stats.
Proof. unfold add_row, diff. rewrite !Z.sub_diag. reflexivity. Qed.

Lemma totals_upto_same (k : nat) (l : list queuestats_t) :
  totals_upto k l l = zero_stats.
Proof.
  induction k as [|k IH]; [reflexivity|]. cbn [totals_upto].
  destruct (l !! k) as [s|]; [|exact IH]. rewrite IH. apply add_row_same.
Qed.

(** Round trip on a delta buffer of [qcount] rows: for a queue index map and
    a raw counter array that fit each other (every source index inside the
    array, every queue below [qcount], every slot below 4) the projection
    exists; when the previous sample is that projection, one delta
    computation on the same raw array succeeds and leaves every per-queue
    delta row and the totals all zero. *)
Theorem round_trip_sized (raw : list Z) (app : EthQApp) :
  fits (length raw) (Z.to_nat (qcount app)) (qmap app) ->
  (Z.to_nat (qcount app) <= size (delta app))%nat ->
  exists (proj : stats_list_t) (app' : EthQApp),
    get_stats raw app = Ok proj /\
    get_deltas raw (App (qmap app) (qcount app) proj (delta app) (total app)) = Ok app' /\
    (forall i, (i < Z.to_nat (qcount app))%nat ->
               elems (delta app') !! i = Some zero_stats) /\
    (forall i j, (i < Z.to_nat (qcount app))%nat -> (j <= 3)%nat ->
                 cell (elems (delta app')) i j = 0) /\
    total app' = zero_stats /\
    (forall j, (j <= 3)%nat -> count_of (total app') j = 0).
Proof.
  intros Hfit Hdelta.
  destruct (get_stats_ok raw app Hfit) as (proj & Hproj & Hsize & _).
  set (app1 := App (qmap app) (qcount app) proj (delta app) (total app)).
  destruct (get_deltas_ok raw app1 proj) as (dl & Hget & Hlen & Hrows & _).
  - exact Hproj.
  - simpl. lia.
  - exact Hdelta.
  - assert (Hzero : forall i, (i < Z.to_nat (qcount app))%nat -> dl !! i = Some zero_stats).
    { intros i Hi.
      destruct (lookup_lt_is_Some_2 (elems proj) i) as [s Hs]; [unfold size in Hsize; lia|].
      rewrite <- (delta_row_same s). apply Hrows; assumption. }
    eexists proj, _. split; [exact Hproj|]. split; [exact Hget|].
    cbn [delta total elems prev app1 qcount].
    rewrite totals_upto_same.
    split; [exact Hzero|]. split; [|split; [reflexivity|]].
    + intros i j Hi Hj. unfold cell. rewrite (Hzero i Hi).
      slot_cases j; reflexivity.
    + intros j Hj. slot_cases j; reflexivity.
Qed.

Lemma round_trip_sized_witness :
  let app := App [(0%nat, (0, 0%nat)); (1%nat, (0, 2%nat)); (3%nat, (1, 3%nat))] 2
                 vector_empty (vector_n 2) zero_stats in
  exists (proj : stats_list_t) (app' : EthQApp),
    get_stats [100; 200; 7; 9] app = Ok proj /\
    get_deltas [100; 200; 7; 9]
      (App (qmap app) (qcount app) proj (delta app) (total app)) = Ok app' /\
    (forall i, (i < 2)%nat -> elems (delta app') !! i = Some zero_stats) /\
    (forall i j, (i < 2)%nat -> (j <= 3)%nat -> cell (elems (delta app')) i j = 0) /\
    total app' = zero_stats /\
    (forall j, (j <= 3)%nat -> count_of (total app') j = 0).
Proof.
  intros app.
  apply (round_trip_sized [100; 200; 7; 9] app).
  - unfold fits. repeat constructor; cbn; lia.
  - cbn. lia.
Defined.

(** ** The signed difference *)

Lemma diff_spec (s p : queuestats_t) (j : nat) :
  diff s p j = to_int64 (count_of s j - count_of p j).
Proof. unfold diff. apply to_int64_wrap64. Qed.

Lemma to_int64_negative (cur prv : Z) :
  0 <= cur < two64 -> 0 <= prv < two64 -> cur < prv ->
  (to_int64 (cur - prv) < 0 <-> prv - cur <= 2 ^ 63).
Proof.
  intros Hc Hp Hlt. unfold to_int64, wrap64, two64 in *.
  replace ((cur - prv) mod 2 ^ 64) with (cur - prv + 2 ^ 64).
  - destruct (Z.ltb_spec (cur - prv + 2 ^ 64) (2 ^ 63)); lia.
  - symmetry. rewrite <- (Z.mod_add _ 1) by lia. rewrite Z.mul_1_l.
    apply Z.mod_small. lia.
Qed.

(** C8 (as amended). For a delta buffer of [qcount] rows, each tick stores
    for every queue and slot the difference current minus previous taken
    modulo 2^64 and read as a signed 64-bit value, without clamping. When
    current < previous the stored delta is negative exactly when the drop
    previous - current is at most 2^63; a larger drop gives the positive
    wrapped difference. *)
Theorem C8_signed_delta (raw : list Z) (app : EthQApp) :
  fits (length raw) (Z.to_nat (qcount app)) (qmap app) ->
  (Z.to_nat (qcount app) <= size (prev app))%nat ->
  (Z.to_nat (qcount app) <= size (delta app))%nat ->
  exists (stats : stats_list_t) (app' : EthQApp),
    get_stats raw app = Ok stats /\
    get_deltas raw app = Ok app' /\
    prev app' = stats /\
    forall i j, (i < Z.to_nat (qcount app))%nat -> (j <= 3)%nat ->
      let cur := cell (elems stats) i j in
      let prv := cell (elems (prev app)) i j in
      let d := to_int64 (cell (elems (delta app')) i j) in
      d = to_int64 (cur - prv) /\
      cell (elems (delta app')) i j = wrap64 (cur - prv) /\
      (0 <= cur < two64 -> 0 <= prv < two64 -> cur < prv ->
       (d < 0 <-> prv - cur <= 2 ^ 63)).
Proof.
  intros Hfit Hprev Hdelta.
  destruct (get_stats_ok raw app Hfit) as (stats & Hst & Hsize & _).
  destruct (get_deltas_ok raw app stats Hst Hprev Hdelta) as (dl & Hget & Hlen & Hrows & _).
  eexists stats, _. split; [exact Hst|]. split; [exact Hget|]. split; [reflexivity|].
  intros i j Hi Hj. cbn [delta elems]. unfold size in *.
  destruct (lookup_lt_is_Some_2 (elems stats) i ltac:(lia)) as [s Hs].
  destruct (lookup_lt_is_Some_2 (elems (prev app)) i ltac:(lia)) as [p Hp].
  unfold cell. rewrite (Hrows i s p Hi Hs Hp), Hs, Hp.
  assert (Hcell : count_of (delta_row s p) j = wrap64 (count_of s j - count_of p j)).
  { transitivity (wrap64 (diff s p j)).
    - clear. slot_cases j; reflexivity.
    - rewrite diff_spec. apply wrap64_to_int64. }
  rewrite Hcell, to_int64_wrap64.
  split; [reflexivity|]. split; [reflexivity|]. apply to_int64_negative.
Qed.

Lemma C8_signed_delta_witness :
  let app := App [(0%nat, (0, 0%nat)); (1%nat, (0, 2%nat))] 1
                 (Vector [QueueStats 150 0 260 0] 1) (vector_n 1) zero_stats in
  let raw := [100; 18446744073709551615] in
  exists (stats : stats_list_t) (app' : EthQApp),
    get_stats raw app = Ok stats /\
    get_deltas raw app = Ok app' /\
    prev app' = stats /\
    forall i j, (i < 1)%nat -> (j <= 3)%nat ->
      let cur := cell (elems stats) i j in
      let prv := cell (elems (prev app)) i j in
      let d := to_int64 (cell (elems (delta app')) i j) in
      d = to_int64 (cur - prv) /\
      cell (elems (delta app')) i j = wrap64 (cur - prv) /\
      (0 <= cur < two64 -> 0 <= prv < two64 -> cur < prv ->
       (d < 0 <-> prv - cur <= 2 ^ 63)).
Proof.
  intros app raw.
  apply (C8_signed_delta raw app).
  - unfold fits. repeat constructor; cbn; lia.
  - cbn. lia.
  - cbn. lia.
Defined.

(** C8, counterexample to "negative whenever current < previous":
    previous = 2^64 - 1 and current = 0 (a counter that wrapped) have
    current < previous, and the stored delta is +1. *)
Lemma C8_counterexample :
  let app := App [(0%nat, (0, 0%nat))] 1
                 (Vector [QueueStats 18446744073709551615 0 0 0] 1) (vector_n 1)
                 zero_stats in
  exists app',
    get_deltas [0] app = Ok app' /\
    cell (elems (prev app)) 0 0 = 18446744073709551615 /\
    cell (elems (prev app')) 0 0 = 0 /\
    cell (elems (delta app')) 0 0 = 1 /\
    ~ to_int64 (cell (elems (delta app')) 0 0) < 0.
Proof.
  eexists. split; [vm_compute; reflexivity|].
  repeat split; vm_compute; congruence.
Qed.

(** ** get_stats has no error path *)

(** The loop of [get_stats] contains no [throw] and calls nothing that
    throws: whatever the arrays, its outcome is a value or an out of bounds
    subscript. *)

Lemma get_stats_never_throws (raw : list Z) (app : EthQApp) (e : exn) :
  get_stats raw app <> Throw e.
Proof. unfold get_stats. apply project_never_throws. Qed.

(** A raw array that does not reach some recorded source index makes the
    projection run into an out of bounds subscript; nothing is thrown. *)
Lemma get_stats_short (raw : list Z) (app : EthQApp) :
  Exists (fun e => (length raw <= e.1)%nat) (qmap app) ->
  exists b i, get_stats raw app = Undefined b i.
Proof.
  intros Hex. destruct (get_stats raw app) as [stats|e|b i] eqn:E.
  - exfalso. unfold get_stats in E. apply project_reads in E.
    rewrite Exists_exists in Hex. destruct Hex as (x & Hin & Hx).
    rewrite Forall_forall in E. specialize (E x Hin). lia.
  - exfalso. eapply get_stats_never_throws. exact E.
  - eauto.
Qed.

(** C9 (as amended). [get_stats] checks no length. When the raw array is
    longer than every recorded source index (and every recorded queue is
    below [qcount], every slot below 4) each [raw[id]] it reads is inside the
    array and the projection succeeds. *)
Theorem C9_projection_in_bounds (raw : list Z) (app : EthQApp) :
  fits (length raw) (Z.to_nat (qcount app)) (qmap app) ->
  exists stats,
    get_stats raw app = Ok stats /\
    size stats = Z.to_nat (qcount app) /\
    Forall (fun e => is_Some (raw !! e.1)) (qmap app).
Proof.
  intros Hfit. destruct (get_stats_ok raw app Hfit) as (stats & Hst & Hsize & _).
  exists stats. split; [exact Hst|]. split; [exact Hsize|].
  eapply Forall_impl; [exact Hfit|]. intros e (He & _). simpl.
  apply lookup_lt_is_Some_2. exact He.
Qed.

Lemma C9_projection_in_bounds_witness :
  let app := App [(0%nat, (0, 0%nat)); (5%nat, (0, 1%nat))] 1
                 vector_empty vector_empty zero_stats in
  exists stats,
    get_stats [7; 8; 9; 10; 11; 12] app = Ok stats /\
    size stats = 1%nat /\
    Forall (fun e => is_Some ([7; 8; 9; 10; 11; 12] !! e.1)) (qmap app).
Proof.
  intros app.
  apply (C9_projection_in_bounds [7; 8; 9; 10; 11; 12] app).
  unfold fits. repeat constructor; cbn; lia.
Defined.

(** C9, counterexample to "a shorter array is a fatal error and is never
    read out of bounds": with source index 5 recorded and a raw array of
    three counters nothing is thrown; [get_stats] subscripts [raw[5]]
    outside the array, and so does the tick of [get_deltas]. *)
Lemma C9_counterexample :
  let app := App [(0%nat, (0, 0%nat)); (5%nat, (0, 1%nat))] 1
                 (vector_n 1) (vector_n 1) zero_stats in
  (length [7; 8; 9] < 5)%nat /\
  get_stats [7; 8; 9] app = Undefined BufRaw 5 /\
  get_deltas [7; 8; 9] app = Undefined BufRaw 5 /\
  (forall e, get_stats [7; 8; 9] app <> Throw e) /\
  (forall e, get_deltas [7; 8; 9] app <> Throw e).
Proof.
  cbn zeta. split; [cbn; lia|].
  split; [vm_compute; reflexivity|]. split; [vm_compute; reflexivity|].
  split; intros e; vm_compute; discriminate.
Qed.

(** ** The map built at startup fits the name list *)

Lemma max_queue_elem (m : queue_map_t) (id : nat) (queue : Z) (offset : nat) :
  (id, (queue, offset)) ∈ m -> queue <= max_queue m.
Proof.
  induction m as [|[k [q o]] m IH]; intros H.
  - inversion H.
  - apply elem_of_cons in H. destruct H as [H|H]; simpl.
    + injection H as -> -> ->. lia.
    + specialize (IH H). lia.
Qed.

Lemma build_queue_map_fits (names : list string) (app : EthQApp) (raw : list Z) :
  build_queue_map names EthQApp_new = Ok app ->
  Forall (fun e => e.2.1 <> two64 - 1) (qmap app) ->
  (length names <= length raw)%nat ->
  fits (length raw) (Z.to_nat (qcount app)) (qmap app).
Proof.
  intros Hb Hne Hlen.
  pose proof (build_queue_map_qcount names app Hb Hne) as Hq.
  apply build_queue_map_inv in Hb. destruct Hb as [_ ->]. cbn [qmap qcount] in *.
  pose proof (entries_from_keys names 0) as Hk.
  pose proof (entries_from_range names 0) as Hr.
  unfold fits. rewrite Forall_forall in *. intros [id [queue offset]] He.
  specialize (Hk _ He). specialize (Hr _ He). specialize (Hne _ He).
  pose proof (max_queue_elem _ _ _ _ He) as Hm.
  cbn [fst snd] in *.
  destruct (entries_from 0 names) as [|e0 m0] eqn:E; [inversion He|].
  rewrite Hq. lia.
Qed.

(** ** Last write wins *)

Lemma map_find_elem (m : queue_map_t) (id : nat) (e : queue_entry_t) :
  map_find id m = Some e -> (id, e) ∈ m.
Proof.
  induction m as [|[k v] m IH]; simpl; [discriminate|].
  destruct (Nat.eqb_spec id k) as [->|Hne]; intros H.
  - injection H as ->. apply list_elem_of_here.
  - apply list_elem_of_further, IH, H.
Qed.

Lemma elem_map_find (m : queue_map_t) (id : nat) (e : queue_entry_t) :
  ascending m -> (id, e) ∈ m -> map_find id m = Some e.
Proof.
  induction m as [|[k v] m IH]; intros Ha H; [inversion H|].
  destruct Ha as [Hk Ha]. apply elem_of_cons in H. simpl.
  destruct H as [H|H].
  - injection H as -> ->. rewrite Nat.eqb_refl. reflexivity.
  - rewrite Forall_forall in Hk. specialize (Hk _ H). simpl in Hk.
    destruct (Nat.eqb_spec id k); [lia|]. apply IH; assumption.
Qed.

Lemma last_source_elem (m : queue_map_t) (queue : Z) (slot id : nat) :
  last_source m queue slot = Some id -> (id, (queue, slot)) ∈ m.
Proof.
  induction m as [|[k [q o]] m IH]; simpl; [discriminate|].
  destruct (last_source m queue slot) as [id'|].
  - intros H. injection H as ->. apply list_elem_of_further, IH. reflexivity.
  - case_bool_decide as Hd; [|discriminate].
    intros H. injection H as ->. destruct Hd as [-> ->]. apply list_elem_of_here.
Qed.

Lemma last_source_latest (m : queue_map_t) (queue : Z) (slot id : nat) :
  ascending m ->
  map_find id m = Some (queue, slot) ->
  (forall id', (id < id')%nat -> map_find id' m <> Some (queue, slot)) ->
  last_source m queue slot = Some id.
Proof.
  induction m as [|[k [q o]] m IH]; intros Ha Hf Hlast; [discriminate|].
  destruct Ha as [Hk Ha]. cbn [map_find last_source] in *.
  destruct (Nat.eqb_spec id k) as [->|Hne].
  - injection Hf as -> ->.
    destruct (last_source m queue slot) as [id'|] eqn:E.
    + exfalso. apply last_source_elem in E.
      pose proof E as Hin. rewrite Forall_forall in Hk. specialize (Hk _ Hin). simpl in Hk.
      apply (Hlast id' Hk).
      destruct (Nat.eqb_spec id' k); [lia|]. apply elem_map_find; assumption.
    + rewrite bool_decide_eq_true_2 by auto. reflexivity.
  - assert (Hgt : (k < id)%nat).
    { apply map_find_elem in Hf. rewrite Forall_forall in Hk. apply (Hk _ Hf). }
    rewrite IH; [reflexivity|exact Ha|exact Hf|].
    intros id' Hid'. specialize (Hlast id' Hid').
    destruct (Nat.eqb_spec id' k); [lia|exact Hlast].
Qed.

Lemma entries_from_ascending (names : list string) :
  forall (i : nat), ascending (entries_from i names).
Proof.
  induction names as [|name rest IH]; intros i; simpl; [exact I|].
  destruct (scan_name name) as [[e|]| |]; try apply IH.
  split; [|apply IH].
  eapply Forall_impl; [apply (entries_from_keys rest (S i))|].
  intros; simpl in *; lia.
Qed.

(** C10. Two names at positions [i1 < i2] that both map to the same
    (queue, slot): building the map signals nothing and keeps both entries,
    and with [i2] the last such position the projection of a tick puts
    [raw[i2]] in that slot. The name list is one on which every name converts
    and no queue index is 2^64 - 1, and the raw array is as long as the name
    list. *)
Theorem C10_last_write_wins (names : list string) (raw : list Z) (i1 i2 : nat)
    (n1 n2 : string) (queue : Z) (slot : nat) :
  Forall scans names ->
  (forall n q o, n ∈ names -> scan_name n = Ok (Some (q, o)) -> q <> two64 - 1) ->
  (length names <= length raw)%nat ->
  (i1 < i2)%nat ->
  names !! i1 = Some n1 -> scan_name n1 = Ok (Some (queue, slot)) ->
  names !! i2 = Some n2 -> scan_name n2 = Ok (Some (queue, slot)) ->
  (forall i n, (i2 < i)%nat -> names !! i = Some n ->
               scan_name n <> Ok (Some (queue, slot))) ->
  exists (app : EthQApp) (stats : stats_list_t) (row : queuestats_t) (v : Z),
    build_queue_map names EthQApp_new = Ok app /\
    map_find i1 (qmap app) = Some (queue, slot) /\
    map_find i2 (qmap app) = Some (queue, slot) /\
    get_stats raw app = Ok stats /\
    raw !! i2 = Some v /\
    elems stats !! Z.to_nat queue = Some row /\
    counts_get row slot = Ok v.
Proof.
  intros Hs Hwrap Hlen Hlt Hn1 Hs1 Hn2 Hs2 Hlast.
  pose proof (build_queue_map_ok names Hs) as Hb.
  set (app := App (entries_from 0 names) (qcount_of (entries_from 0 names) 0)
                  vector_empty vector_empty zero_stats) in *.
  assert (Hfind : forall i n e, names !! i = Some n -> scan_name n = Ok (Some e) ->
                                map_find i (qmap app) = Some e).
  { intros i n e Hn He. cbn [qmap app]. rewrite map_find_entries_from.
    cbn [Nat.leb]. rewrite Nat.sub_0_r, Hn, He. reflexivity. }
  assert (Hne : Forall (fun e => e.2.1 <> two64 - 1) (qmap app)).
  { rewrite Forall_forall. intros [id [q o]] He. cbn [fst snd].
    apply elem_map_find in He; [|apply entries_from_ascending].
    cbn [qmap app] in He. rewrite map_find_entries_from in He.
    cbn [Nat.leb] in He. rewrite Nat.sub_0_r in He.
    destruct (names !! id) as [n|] eqn:En; [|discriminate].
    destruct (scan_name n) as [[e|]| |] eqn:Esc; try discriminate.
    injection He as ->. eapply Hwrap; [|exact Esc].
    eapply list_elem_of_lookup_2. exact En. }
  pose proof (build_queue_map_fits names app raw Hb Hne Hlen) as Hfit.
  destruct (get_stats_ok raw app Hfit) as (stats & Hst & Hsize & Hcell).
  pose proof (Hfind _ _ _ Hn2 Hs2) as Hf2.
  assert (Hsrc : last_source (qmap app) queue slot = Some i2).
  { apply last_source_latest; [apply entries_from_ascending|exact Hf2|].
    intros id' Hid' Hc. cbn [qmap app] in Hc. rewrite map_find_entries_from in Hc.
    cbn [Nat.leb] in Hc. rewrite Nat.sub_0_r in Hc.
    destruct (names !! id') as [n|] eqn:En; [|discriminate].
    destruct (scan_name n) as [[e|]| |] eqn:Esc; try discriminate.
    injection Hc as ->. apply (Hlast id' n Hid' En Esc). }
  apply scan_name_range in Hs2 as Hrange. destruct Hrange as [Hq Hslot].
  specialize (Hcell queue slot ltac:(lia) Hslot). rewrite Hsrc in Hcell.
  pose proof Hfit as Hall. unfold fits in Hall. rewrite Forall_forall in Hall.
  pose proof (Hall _ (map_find_elem _ _ _ Hf2)) as (Hi2 & _ & Hrow & _). cbn [fst snd] in *.
  destruct (lookup_lt_is_Some_2 raw i2 Hi2) as [v Hv].
  destruct (lookup_lt_is_Some_2 (elems stats) (Z.to_nat queue)) as [row Hr];
    [unfold size in Hsize; lia|].
  exists app, stats, row, v.
  split; [exact Hb|]. split; [exact (Hfind _ _ _ Hn1 Hs1)|]. split; [exact Hf2|].
  split; [exact Hst|]. split; [exact Hv|]. split; [exact Hr|].
  unfold cell in Hcell. rewrite Hr, Hv in Hcell. simpl in Hcell.
  rewrite counts_get_ok by exact Hslot. congruence.
Qed.

Lemma C10_last_write_wins_witness :
  exists (app : EthQApp) (stats : stats_list_t) (row : queuestats_t) (v : Z),
    build_queue_map ["tx-0.tx_bytes"; "link_down_events"; "tx-0.tso_bytes"] EthQApp_new
    = Ok app /\
    map_find 0 (qmap app) = Some (0, 2%nat) /\
    map_find 2 (qmap app) = Some (0, 2%nat) /\
    get_stats [100; 5; 300] app = Ok stats /\
    [100; 5; 300] !! 2%nat = Some v /\
    elems stats !! Z.to_nat 0 = Some row /\
    counts_get row 2 = Ok v.
Proof.
  apply (C10_last_write_wins ["tx-0.tx_bytes"; "link_down_events"; "tx-0.tso_bytes"]
           [100; 5; 300] 0 2 "tx-0.tx_bytes" "tx-0.tso_bytes" 0 2).
  - repeat constructor; eexists; vm_compute; reflexivity.
  - intros n q o Hn. rewrite !elem_of_cons in Hn.
    destruct Hn as [->|[->|[->|Hn]]]; [| | |inversion Hn]; vm_compute; congruence.
  - cbn. lia.
  - lia.
  - reflexivity.
  - vm_compute. reflexivity.
  - reflexivity.
  - vm_compute. reflexivity.
  - intros i n Hi Hn. destruct i as [|[|[|i]]]; try lia. discriminate Hn.
Defined.

(** ** Startup *)

Lemma qcount_of_ge (m : queue_map_t) : forall (q0 : Z), q0 <= qcount_of m q0.
Proof.
  induction m as [|[k [queue offset]] m IH]; intros q0; simpl; [lia|].
  specialize (IH (Z.max (wrap64 (queue + 1)) q0)). lia.
Qed.

(** A startup that succeeds leaves [delta] with capacity for [qcount] rows
    and no element. *)
Lemma handleArgs_delta (open : world) (argv : list string) (ethtool : Ethtool)
    (app : EthQApp) :
  handleArgs open argv EthQApp_new = Ok (ethtool, app) ->
  0 < qcount app /\
  size (delta app) = 0%nat /\
  capacity (delta app) = Z.to_nat (qcount app) /\
  prev app = vector_empty.
Proof.
  unfold handleArgs. intros H.
  destruct argv as [|prog [|ifname [|x argv]]]; try discriminate.
  apply bind_ok in H. destruct H as (eth & _ & H).
  apply bind_ok in H. destruct H as (names & _ & H).
  apply bind_ok in H. destruct H as (app1 & Hb & H).
  apply build_queue_map_inv in Hb. destruct Hb as [_ ->]. cbn [qcount qmap prev delta total] in H.
  destruct (Z.eqb_spec (qcount_of (entries_from 0 names) 0) 0) as [|Hne]; [discriminate|].
  injection H as <- <-. cbn [qcount delta prev reserve capacity elems vector_empty size].
  pose proof (qcount_of_ge (entries_from 0 names) 0).
  repeat split; try reflexivity; lia.
Qed.

(** With a delta buffer of no element, the tick subscripts [delta[0]] outside
    the buffer as soon as there is one queue. *)
Lemma get_deltas_unsized (raw : list Z) (app : EthQApp) (stats : stats_list_t) :
  get_stats raw app = Ok stats ->
  0 < qcount app ->
  (0 < size (prev app))%nat ->
  size (delta app) = 0%nat ->
  get_deltas raw app = Undefined BufDelta 0.
Proof.
  intros Hst Hq Hprev Hdelta.
  pose proof (get_stats_size _ _ _ Hst) as Hsize.
  unfold get_deltas. rewrite Hst. cbn [mbind result_bind]. rewrite reset_total.
  cbn [mbind result_bind].
  destruct (Z.to_nat (qcount app)) as [|n] eqn:En; [lia|].
  unfold size in *.
  destruct (lookup_lt_is_Some_2 (elems stats) 0 ltac:(lia)) as [s Hs].
  destruct (lookup_lt_is_Some_2 (elems (prev app)) 0 ltac:(lia)) as [p Hp].
  unfold for_loop. cbn [for_from]. unfold vector_get, vector_set_count, vector_get.
  rewrite (subscript_ok _ _ _ _ Hs), (subscript_ok _ _ _ _ Hp).
  rewrite (subscript_undefined BufDelta (elems (delta app)) 0) by lia.
  reflexivity.
Qed.

(** Every first tick after a startup that succeeded: the projection has
    [qcount] rows, [delta] has none. *)
Lemma startup_first_tick (open : world) (argv : list string) (ethtool : Ethtool)
    (app : EthQApp) (raw0 raw : list Z) (first stats : stats_list_t) :
  handleArgs open argv EthQApp_new = Ok (ethtool, app) ->
  get_stats raw0 app = Ok first ->
  get_stats raw app = Ok stats ->
  get_deltas raw (App (qmap app) (qcount app) first (delta app) (total app))
  = Undefined BufDelta 0.
Proof.
  intros Hh Hfirst Hst.
  destruct (handleArgs_delta _ _ _ _ Hh) as (Hq & Hd & _ & _).
  pose proof (get_stats_size _ _ _ Hfirst) as Hsize.
  apply (get_deltas_unsized raw _ stats); cbn [qcount prev delta]; try assumption.
  lia.
Qed.

(** C3, evaluated: the round trip on the state that startup leaves. One
    queue is discovered and the previous sample is the projection of the raw
    array [5]; the delta computation on the same array does not store zero
    deltas: its first write [delta[0].counts[0] = d] subscripts the delta
    buffer, which has capacity 1 and no element, outside. *)
Theorem C3_round_trip_after_startup :
  let ethtool := {| stringset := Ok ["tx-0.tx_packets"]; stats := fun _ => Ok [5] |} in
  exists (app : EthQApp) (proj : stats_list_t),
    handleArgs (fun _ => Ok ethtool) ["ethq"; "eth0"] EthQApp_new = Ok (ethtool, app) /\
    size (delta app) = 0%nat /\
    get_stats [5] app = Ok proj /\
    get_deltas [5] (App (qmap app) (qcount app) proj (delta app) (total app))
    = Undefined BufDelta 0 /\
    main (fun _ => Ok ethtool) ["ethq"; "eth0"] [None] = ([EvTick 1], Crash BufDelta 0).
Proof.
  intros ethtool. eexists _, _.
  split; [vm_compute; reflexivity|]. split; [reflexivity|].
  split; [vm_compute; reflexivity|]. split; vm_compute; reflexivity.
Qed.

(** C1, evaluated: one queue is discovered, [handleArgs] reserves capacity 1
    for [delta] and leaves its size 0; the first tick subscripts [delta[0]]
    outside the buffer. *)
Theorem C1_delta_never_sized :
  let ethtool := {| stringset := Ok ["tx-0.tx_packets"];
                    stats := fun n => Ok [Z.of_nat n] |} in
  exists (app : EthQApp) (first : stats_list_t),
    handleArgs (fun _ => Ok ethtool) ["ethq"; "eth0"] EthQApp_new = Ok (ethtool, app) /\
    qcount app = 1 /\
    size (delta app) = 0%nat /\
    capacity (delta app) = 1%nat /\
    get_stats [0] app = Ok first /\
    vector_get BufDelta (delta app) 0 = Undefined BufDelta 0 /\
    get_deltas [1] (App (qmap app) (qcount app) first (delta app) (total app))
    = Undefined BufDelta 0 /\
    main (fun _ => Ok ethtool) ["ethq"; "eth0"] [None; Some "q"%char]
    = ([EvTick 1], Crash BufDelta 0).
Proof.
  intros ethtool. eexists _, _.
  split; [vm_compute; reflexivity|].
  split; [reflexivity|]. split; [reflexivity|]. split; [reflexivity|].
  split; [vm_compute; reflexivity|].
  split; [reflexivity|]. split; vm_compute; reflexivity.
Qed.

(** C5. When the name list yields no queue ([qcount] is 0 after
    [build_queue_map]), [handleArgs] throws "No NIC queues found"; [main]
    prints that one line to standard error and returns [EXIT_FAILURE], and no
    tick of the polling loop is run. *)
Theorem C5_zero_queues_halts (open : world) (argv : list string)
    (keys : list (option ascii)) (prog ifname : string) (ethtool : Ethtool)
    (names : list string) (app : EthQApp) :
  argv = [prog; ifname] ->
  open ifname = Ok ethtool ->
  stringset ethtool = Ok names ->
  build_queue_map names EthQApp_new = Ok app ->
  qcount app = 0 ->
  handleArgs open argv EthQApp_new = Throw (runtime_error "No NIC queues found") /\
  main open argv keys = ([EvStderr "error: No NIC queues found"], Exit EXIT_FAILURE) /\
  EXIT_FAILURE <> 0 /\
  forall n, EvTick n ∉ (main open argv keys).1.
Proof.
  intros -> Hopen Hnames Hb Hq.
  assert (Hh : handleArgs open [prog; ifname] EthQApp_new
               = Throw (runtime_error "No NIC queues found")).
  { unfold handleArgs. rewrite Hopen. cbn [mbind result_bind].
    rewrite Hnames. cbn [mbind result_bind]. rewrite Hb. cbn [mbind result_bind].
    rewrite Hq. reflexivity. }
  assert (Hm : main open [prog; ifname] keys
               = ([EvStderr "error: No NIC queues found"], Exit EXIT_FAILURE)).
  { unfold main. rewrite Hh. reflexivity. }
  split; [exact Hh|]. split; [exact Hm|]. split; [discriminate|].
  intros n Hin. rewrite Hm in Hin. cbn [fst] in Hin.
  apply list_elem_of_singleton in Hin. discriminate.
Qed.

Lemma C5_zero_queues_halts_witness :
  let ethtool := {| stringset := Ok ["link_down_events"; "rx_crc_errors"];
                    stats := fun _ => Ok [0; 0] |} in
  handleArgs (fun _ => Ok ethtool) ["ethq"; "eth0"] EthQApp_new
  = Throw (runtime_error "No NIC queues found") /\
  main (fun _ => Ok ethtool) ["ethq"; "eth0"] [None; None]
  = ([EvStderr "error: No NIC queues found"], Exit EXIT_FAILURE) /\
  EXIT_FAILURE <> 0 /\
  forall n, EvTick n ∉ (main (fun _ => Ok ethtool) ["ethq"; "eth0"] [None; None]).1.
Proof.
  intros ethtool.
  apply (C5_zero_queues_halts (fun _ => Ok ethtool) ["ethq"; "eth0"] [None; None]
           "ethq" "eth0" ethtool ["link_down_events"; "rx_crc_errors"] EthQApp_new).
  - reflexivity.
  - reflexivity.
  - reflexivity.
  - vm_compute. reflexivity.
  - reflexivity.
Defined.

(** ** Names that do not match *)

(** When every name converts, the map holds exactly the names that matched,
    each under its position; the other names leave no entry and do not stop
    the loop. *)
Lemma build_queue_map_entries (names : list string) :
  Forall scans names ->
  exists app,
    build_queue_map names EthQApp_new = Ok app /\
    forall i,
      map_find i (qmap app)
      = match names !! i with
        | Some name => match scan_name name with Ok (Some e) => Some e | _ => None end
        | None => None
        end.
Proof.
  intros Hs. eexists. split; [apply build_queue_map_ok; exact Hs|].
  intros i. cbn [qmap]. rewrite map_find_entries_from. cbn [Nat.leb].
  rewrite Nat.sub_0_r. reflexivity.
Qed.

Lemma digit_run_app (ds rest : string) :
  forall (acc : Z),
    all_digits ds = true -> no_leading_digit rest = true ->
    digit_run (ds +:+ rest) acc = ((digit_run ds acc).1, String.length ds).
Proof.
  induction ds as [|c ds IH]; intros acc Hd Hr; simpl.
  - destruct rest as [|c rest]; [reflexivity|]. simpl in *.
    destruct (isdigit c); [discriminate|reflexivity].
  - simpl in Hd. apply andb_prop in Hd. destruct Hd as [Hc Hd]. rewrite Hc.
    rewrite IH by assumption.
    destruct (digit_run ds (10 * acc + digit_value c)). reflexivity.
Qed.

Lemma isdigit_not_space (c : ascii) : isdigit c = true -> isspace c = false.
Proof.
  unfold isdigit, isspace. generalize (nat_of_ascii c). intros n H.
  apply andb_prop in H. destruct H as [H1 H2].
  apply Nat.leb_le in H1. apply Nat.leb_le in H2.
  destruct (Nat.eqb_spec n 32); [lia|].
  destruct (Nat.leb_spec 9 n), (Nat.leb_spec n 13); simpl; try reflexivity; lia.
Qed.

Lemma digit_run_nonneg (ds : string) :
  forall (acc : Z), all_digits ds = true -> 0 <= acc -> 0 <= (digit_run ds acc).1.
Proof.
  induction ds as [|c ds IH]; intros acc Hd Hacc; simpl; [exact Hacc|].
  simpl in Hd. apply andb_prop in Hd. destruct Hd as [Hc Hd]. rewrite Hc.
  specialize (IH (10 * acc + digit_value c) Hd).
  destruct (digit_run ds (10 * acc + digit_value c)) as [v n]. simpl in *.
  apply IH. unfold isdigit in Hc. apply andb_prop in Hc. destruct Hc as [Hc _].
  apply Nat.leb_le in Hc. unfold digit_value. lia.
Qed.

(** A run of digits within [int] followed by something else: [stoi] converts
    the run and stops after it. *)
Lemma stoi_digits_then (ds rest : string) :
  ds <> "" -> all_digits ds = true -> no_leading_digit rest = true ->
  (digit_run ds 0).1 <= INT_MAX ->
  stoi (ds +:+ rest) = Ok ((digit_run ds 0).1, String.length ds).
Proof.
  intros Hne Hd Hr Hmax.
  pose proof (digit_run_nonneg ds 0 Hd ltac:(lia)) as Hmin.
  destruct ds as [|c ds]; [congruence|].
  pose proof Hd as Hd'. simpl in Hd'. apply andb_prop in Hd'. destruct Hd' as [Hc _].
  unfold stoi.
  assert (Hws : skip_space (String c ds +:+ rest) = 0%nat).
  { simpl. rewrite (isdigit_not_space c Hc). reflexivity. }
  rewrite Hws. cbn [drop_chars].
  assert (Hsign : match String c ds +:+ rest with
                  | String "-" _ => (true, 1%nat)
                  | String "+" _ => (false, 1%nat)
                  | _ => (false, 0%nat)
                  end = (false, 0%nat)).
  { clear - Hc. cbn [String.append].
    destruct c as [[] [] [] [] [] [] [] []]; try reflexivity; discriminate Hc. }
  rewrite Hsign. cbn [drop_chars].
  rewrite (digit_run_app _ _ 0 Hd Hr).
  cbn [String.length Nat.eqb].
  destruct (Z.ltb_spec (digit_run (String c ds) 0).1 INT_MIN) as [Hlt|_];
    [unfold INT_MIN in Hlt; lia|].
  destruct (Z.ltb_spec INT_MAX (digit_run (String c ds) 0).1) as [Hlt|_]; [lia|].
  reflexivity.
Qed.

Lemma prefix_length (p s : string) :
  String.prefix p s = true -> (String.length p <= String.length s)%nat.
Proof.
  revert s. induction p as [|a p IH]; intros s H; simpl; [lia|].
  destruct s as [|b s]; [discriminate|]. cbn [String.prefix] in H.
  destruct (ascii_dec a b); [|discriminate]. specialize (IH s H). simpl. lia.
Qed.

Lemma length_append (s t : string) :
  String.length (s +:+ t) = (String.length s + String.length t)%nat.
Proof. induction s as [|c s IH]; simpl; [reflexivity|]. rewrite IH. reflexivity. Qed.

(** Within the range of [int], a queue-number field made of digits followed
    by other characters is skipped by the [eon] check. *)
Lemma scan_name_trailing (name ds rest : string) (dot : nat) :
  String.prefix "rx-" name || String.prefix "tx-" name = true ->
  find "." 3 name = Some dot ->
  String.substring 3 (dot - 3) name = ds +:+ rest ->
  ds <> "" -> all_digits ds = true ->
  rest <> "" -> no_leading_digit rest = true ->
  (digit_run ds 0).1 <= INT_MAX ->
  scan_name name = Ok None.
Proof.
  intros Hp Hdot Htmp Hds Hd Hrest Hr Hmax.
  unfold scan_name. rewrite !find_flag, Hp, Hdot. cbn [negb].
  assert (Hlen : (3 <= String.length name)%nat).
  { apply orb_prop in Hp. destruct Hp as [Hp|Hp]; apply prefix_length in Hp; exact Hp. }
  unfold substr. destruct (Nat.leb_spec 3 (String.length name)); [|lia].
  cbn [mbind result_bind]. rewrite Htmp.
  rewrite stoi_digits_then by assumption. cbn [mbind result_bind].
  rewrite length_append.
  destruct rest as [|c rest]; [congruence|]. cbn [String.length].
  destruct (Nat.ltb_spec (String.length ds) (String.length ds + S (String.length rest)));
    [reflexivity|lia].
Qed.

(** ** Evaluations *)

(** Scenario 1 of the specification: eight names of two queues. *)
Example scenario_two_queues :
  build_queue_map
    ["rx-0.rx_packets"; "rx-0.rx_bytes"; "tx-0.tx_packets"; "tx-0.tx_bytes";
     "rx-1.rx_packets"; "rx-1.rx_bytes"; "tx-1.tx_packets"; "tx-1.tx_bytes"]
    EthQApp_new
  = Ok (App [(0%nat, (0, 1%nat)); (1%nat, (0, 3%nat)); (2%nat, (0, 0%nat));
             (3%nat, (0, 2%nat)); (4%nat, (1, 1%nat)); (5%nat, (1, 3%nat));
             (6%nat, (1, 0%nat)); (7%nat, (1, 2%nat))]
            2 vector_empty vector_empty zero_stats).
Proof. vm_compute. reflexivity. Qed.

(** Scenarios 2 and 4: a name without the prefix and a name with a letter
    after the queue number are skipped. *)
Example scenario_skipped :
  scan_name "link_down_events" = Ok None /\ scan_name "rx-2x.rx_bytes" = Ok None.
Proof. split; vm_compute; reflexivity. Qed.

(** Scenario 3: counters 100, 200 then 150, 260 give deltas 50 and 60. *)
Example scenario_deltas :
  get_deltas [150; 260]
    (App [(0%nat, (0, 0%nat)); (1%nat, (0, 2%nat))] 1
         (Vector [QueueStats 100 0 200 0] 1) (vector_n 1) zero_stats)
  = Ok (App [(0%nat, (0, 0%nat)); (1%nat, (0, 2%nat))] 1
            (Vector [QueueStats 150 0 260 0] 1)
            (Vector [QueueStats 50 0 60 0] 1) (QueueStats 50 0 60 0)).
Proof. vm_compute. reflexivity. Qed.

(** C2, evaluated: [std::stoi] accepts a sign, and the [int] becomes a
    [size_t]. For the fields "-1" and "-2" the recorded queue indices are
    2^64 - 1 and 2^64 - 2; the successor of the first wraps to 0, and the
    count ends as 2^64 - 1, which is not one plus the maximum index. A list
    with the single field "-1" has an entry in the map and a count of 0. *)
Theorem C2_qcount_wraps :
  (exists app,
     build_queue_map ["tx--1.tx_packets"; "tx--2.tx_packets"] EthQApp_new = Ok app /\
     qmap app = [(0%nat, (18446744073709551615, 0%nat));
                 (1%nat, (18446744073709551614, 0%nat))] /\
     max_queue (qmap app) = 18446744073709551615 /\
     qcount app = 18446744073709551615 /\
     qcount app <> 1 + max_queue (qmap app) /\
     qcount app <> wrap64 (1 + max_queue (qmap app))) /\
  (exists app,
     build_queue_map ["tx--1.tx_packets"] EthQApp_new = Ok app /\
     qmap app = [(0%nat, (18446744073709551615, 0%nat))] /\
     qcount app = 0).
Proof.
  split; eexists; (split; [vm_compute; reflexivity|]);
    repeat split; vm_compute; congruence.
Qed.

(** C6, evaluated: a name with the prefix and a dot whose field between them
    has no digit makes [std::stoi] throw [invalid_argument]; the loop is
    left, the names after it are not visited, and [main] ends with
    "error: stoi" and [EXIT_FAILURE]. *)
Theorem C6_unconvertible_name_throws :
  let names := ["link_down_events"; "tx-abc.tx_packets"; "tx-0.tx_packets"] in
  let ethtool := {| stringset := Ok names; stats := fun _ => Ok [0; 0; 0] |} in
  scan_name "tx-abc.tx_packets" = Throw (invalid_argument "stoi") /\
  build_queue_map names EthQApp_new = Throw (invalid_argument "stoi") /\
  main (fun _ => Ok ethtool) ["ethq"; "eth0"] [None]
  = ([EvStderr "error: stoi"], Exit EXIT_FAILURE).
Proof. repeat split; vm_compute; reflexivity. Qed.

(** C7, evaluated: digits followed by a letter are skipped while the digits
    fit an [int] ("rx-2x.rx_bytes"); one more than [INT_MAX] before the
    letter makes [std::stoi] throw [out_of_range] before the length check
    is reached, and [main] ends with "error: stoi" and [EXIT_FAILURE]. *)
Theorem C7_trailing_after_overflow_throws :
  let names := ["rx-2147483648x.rx_bytes"; "rx-0.rx_bytes"] in
  let ethtool := {| stringset := Ok names; stats := fun _ => Ok [0; 0] |} in
  scan_name "rx-2x.rx_bytes" = Ok None /\
  scan_name "rx-2147483647x.rx_bytes" = Ok None /\
  scan_name "rx-2147483648x.rx_bytes" = Throw (out_of_range "stoi") /\
  build_queue_map names EthQApp_new = Throw (out_of_range "stoi") /\
  main (fun _ => Ok ethtool) ["ethq"; "eth0"] [None]
  = ([EvStderr "error: stoi"], Exit EXIT_FAILURE).
Proof. repeat split; vm_compute; reflexivity. Qed.

(** ** The only exceptions of build_queue_map are those of std::stoi *)

Lemma find_bound (pat s : string) :
  forall (pos m : nat),
    find pat pos s = Some m -> (m + String.length pat <= String.length s)%nat.
Proof.
  unfold find. induction s as [|b s IH]; intros pos m H.
  - destruct pos; simpl in H; [|discriminate].
    destruct pat; [|discriminate]. injection H as <-. simpl. lia.
  - destruct pos as [|pos]; cbn [String.index] in H.
    + destruct (String.prefix pat (String b s)) eqn:Hp.
      * injection H as <-. apply prefix_length in Hp. lia.
      * destruct (String.index 0 pat s) as [k|] eqn:Hk; [|discriminate].
        injection H as <-. specialize (IH _ _ Hk). simpl. lia.
    + destruct (String.index pos pat s) as [k|] eqn:Hk; [|discriminate].
      injection H as <-. specialize (IH _ _ Hk). simpl. lia.
Qed.

Lemma scan_name_throw (name : string) (e : exn) :
  scan_name name = Throw e ->
  exists tmp, stoi tmp = Throw e /\
              (e = invalid_argument "stoi" \/ e = out_of_range "stoi").
Proof.
  unfold scan_name. rewrite !find_flag. intros H.
  destruct (String.prefix "rx-" name || String.prefix "tx-" name) eqn:Hp;
    cbn [negb] in H; [|discriminate].
  assert (Hlen : (3 <= String.length name)%nat).
  { apply orb_prop in Hp. destruct Hp as [Hp|Hp]; apply prefix_length in Hp; exact Hp. }
  destruct (find "." 3 name) as [dot|]; [|discriminate].
  unfold substr at 1 in H. destruct (Nat.leb_spec 3 (String.length name)); [|lia].
  cbn [mbind result_bind] in H.
  destruct (stoi (String.substring 3 (dot - 3) name)) as [[n eon]|e'|b i] eqn:Hs;
    cbn [mbind result_bind] in H.
  - destruct (eon <? _)%nat; [discriminate|].
    destruct (find "_" (dot + 3) name) as [under|] eqn:Hu; [|discriminate].
    apply find_bound in Hu. simpl in Hu.
    unfold substr_from, substr in H.
    destruct (Nat.leb_spec (under + 1) (String.length name)); [|lia].
    discriminate.
  - injection H as ->. eexists. split; [exact Hs|].
    unfold stoi in Hs.
    destruct (match drop_chars _ _ with String "-" _ => _ | _ => _ end) as [neg sg].
    destruct (digit_run _ 0) as [v nd].
    destruct (nd =? 0)%nat; [injection Hs as <-; auto|].
    destruct ((_ <? INT_MIN) || _); [injection Hs as <-; auto|discriminate].
  - discriminate.
Qed.

(** [build_queue_map] ends with an exception only through [std::stoi]. *)
Lemma build_queue_map_throw (names : list string) (app : EthQApp) (e : exn) :
  build_queue_map names app = Throw e ->
  e = invalid_argument "stoi" \/ e = out_of_range "stoi".
Proof.
  rewrite build_queue_map_unfold. generalize 0%nat. revert app.
  induction names as [|name rest IH]; intros app i H; [discriminate|].
  cbn [build_from] in H. unfold build_queue_map_body at 1 in H.
  destruct (scan_name name) as [r|e'|b j] eqn:Hs; cbn [mbind result_bind] in H.
  - destruct r as [[queue offset]|]; cbn [mbind result_bind] in H; eapply IH; exact H.
  - injection H as ->. apply scan_name_throw in Hs. destruct Hs as (_ & _ & Hs). exact Hs.
  - discriminate.
Qed.

(** * Further properties of the code *)

(** ** build_queue_map: names that are skipped *)

Lemma scan_name_skip (name : string) :
  (String.prefix "rx-" name = false /\ String.prefix "tx-" name = false) \/
  find "." 3 name = None ->
  scan_name name = Ok None.
Proof.
  intros H. unfold scan_name. rewrite !find_flag.
  destruct (String.prefix "rx-" name || String.prefix "tx-" name) eqn:Hp;
    cbn [negb]; [|reflexivity].
  destruct H as [[Hr Ht]|Hd].
  - rewrite Hr, Ht in Hp. discriminate.
  - rewrite Hd. reflexivity.
Qed.

Lemma build_from_skip (names : list string) :
  forall (i : nat) (app : EthQApp),
    Forall (fun name => scan_name name = Ok None) names ->
    build_from i names app = Ok app.
Proof.
  induction names as [|name rest IH]; intros i app H; [reflexivity|].
  inversion H as [|? ? Hn Hrest]; subst. cbn [build_from].
  unfold build_queue_map_body. rewrite Hn. cbn [mbind result_bind].
  apply IH. exact Hrest.
Qed.

(** X1. Names that start with neither "rx-" nor "tx-", or that have no '.'
    from position 3 on, are passed over: a list of such names leaves the
    application state as it was (no entry, same [qcount]) and throws
    nothing, whatever else the names contain. *)
Theorem X1_unrelated_names_skipped (names : list string) (app : EthQApp) :
  Forall (fun name =>
            (String.prefix "rx-" name = false /\ String.prefix "tx-" name = false) \/
            find "." 3 name = None) names ->
  build_queue_map names app = Ok app.
Proof.
  intros H. rewrite build_queue_map_unfold. apply build_from_skip.
  eapply Forall_impl; [exact H|]. intros name Hn. apply scan_name_skip. exact Hn.
Qed.

Lemma X1_unrelated_names_skipped_witness :
  build_queue_map ["link_down_events"; "rx_crc_errors"; "tx-timeout"; ""] EthQApp_new
  = Ok EthQApp_new.
Proof.
  apply (X1_unrelated_names_skipped
           ["link_down_events"; "rx_crc_errors"; "tx-timeout"; ""] EthQApp_new).
  repeat first [apply List.Forall_nil | apply List.Forall_cons];
    vm_compute; first [left; split; reflexivity | right; reflexivity].
Defined.

(** ** build_queue_map: what the map and the count look like *)

Lemma max_queue_attained (m : queue_map_t) :
  m <> [] ->
  Forall (fun e => 0 <= e.2.1) m ->
  exists id offset, (id, (max_queue m, offset)) ∈ m.
Proof.
  induction m as [|[k [q o]] m IH]; intros Hne Hpos; [congruence|].
  inversion Hpos as [|? ? Hq Hm]; subst. cbn [fst snd] in Hq. cbn [max_queue].
  destruct m as [|e m'].
  - exists k, o. cbn [max_queue]. rewrite Z.max_l by lia. apply list_elem_of_here.
  - destruct (IH ltac:(discriminate) Hm) as (id & off & Hin).
    destruct (Z.le_ge_cases (max_queue (e :: m')) q) as [Hle|Hge].
    + exists k, o. rewrite Z.max_l by lia. apply list_elem_of_here.
    + exists id, off. rewrite Z.max_r by lia. apply list_elem_of_further. exact Hin.
Qed.

(** X2. After [build_queue_map] on a fresh application, if no recorded queue
    index is 2^64 - 1 (the one index whose successor wraps), then either
    nothing matched and [qcount] is 0, or [qcount - 1] is a recorded queue
    index and every recorded index is below [qcount]: the count is one plus
    the largest index. *)
Theorem X2_qcount_bounds_all_queues (names : list string) (app : EthQApp) :
  build_queue_map names EthQApp_new = Ok app ->
  Forall (fun e => e.2.1 <> two64 - 1) (qmap app) ->
  (qmap app = [] /\ qcount app = 0) \/
  ((exists id offset, (id, (qcount app - 1, offset)) ∈ qmap app) /\
   Forall (fun e => 0 <= e.2.1 < qcount app) (qmap app)).
Proof.
  intros Hb Hne.
  pose proof (build_queue_map_qcount names app Hb Hne) as Hq.
  apply build_queue_map_inv in Hb. destruct Hb as [_ ->]. cbn [qmap qcount] in *.
  pose proof (entries_from_range names 0) as Hr.
  destruct (entries_from 0 names) as [|e m] eqn:E; [left; auto|right].
  assert (Hpos : Forall (fun e => 0 <= e.2.1) (e :: m)).
  { eapply Forall_impl; [exact Hr|]. intros x Hx. cbn beta in Hx. lia. }
  split.
  - destruct (max_queue_attained (e :: m) ltac:(discriminate) Hpos) as (id & off & Hin).
    exists id, off. rewrite Hq. replace (1 + max_queue (e :: m) - 1) with (max_queue (e :: m)) by lia.
    exact Hin.
  - rewrite Forall_forall in *. intros [id [q o]] Hin. cbn [fst snd].
    specialize (Hpos _ Hin). cbn [fst snd] in Hpos.
    pose proof (max_queue_elem _ _ _ _ Hin). lia.
Qed.

Lemma X2_qcount_bounds_all_queues_witness :
  let app := App [(0%nat, (3, 0%nat)); (2%nat, (1, 3%nat))] 4
                 vector_empty vector_empty zero_stats in
  (qmap app = [] /\ qcount app = 0) \/
  ((exists id offset, (id, (qcount app - 1, offset)) ∈ qmap app) /\
   Forall (fun e => 0 <= e.2.1 < qcount app) (qmap app)).
Proof.
  intros app.
  apply (X2_qcount_bounds_all_queues ["tx-3.tx_packets"; "link"; "rx-1.rx_bytes"] app).
  - vm_compute. reflexivity.
  - repeat constructor; vm_compute; congruence.
Defined.

Lemma ascending_lookup (m : queue_map_t) :
  forall (i j : nat) (e e' : nat * queue_entry_t),
    ascending m ->
    m !! i = Some e -> m !! j = Some e' -> (i < j)%nat -> (e.1 < e'.1)%nat.
Proof.
  induction m as [|[k v] m IH]; intros i j e e' Ha Hi Hj Hlt; [discriminate|].
  destruct Ha as [Hk Ha]. destruct j as [|j]; [lia|]. cbn in Hj.
  destruct i as [|i].
  - cbn in Hi. injection Hi as <-. cbn [fst].
    rewrite Forall_forall in Hk. apply (Hk e').
    eapply list_elem_of_lookup_2. exact Hj.
  - cbn in Hi. eapply IH; eauto. lia.
Qed.

(** X3. The map that [build_queue_map] builds on a fresh application has
    its keys in strictly increasing order, every key is a position of the
    name list, every queue index is a [size_t] value and every slot offset is
    at most 3. *)
Theorem X3_map_invariants (names : list string) (app : EthQApp) :
  build_queue_map names EthQApp_new = Ok app ->
  (forall i j e e', qmap app !! i = Some e -> qmap app !! j = Some e' ->
                    (i < j)%nat -> (e.1 < e'.1)%nat) /\
  Forall (fun e => (e.1 < length names)%nat /\ 0 <= e.2.1 < two64 /\ (e.2.2 <= 3)%nat)
         (qmap app).
Proof.
  intros Hb. apply build_queue_map_inv in Hb. destruct Hb as [_ ->]. cbn [qmap].
  split.
  - intros i j e e' Hi Hj Hlt.
    eapply ascending_lookup; eauto. apply entries_from_ascending.
  - pose proof (entries_from_keys names 0) as Hk.
    pose proof (entries_from_range names 0) as Hr.
    rewrite Forall_forall in *. intros e He.
    specialize (Hk e He). specialize (Hr e He). simpl in Hk, Hr.
    destruct Hr as [Hq Ho]. split; [apply Hk|]. split; assumption.
Qed.

Lemma X3_map_invariants_witness :
  let app := App [(0%nat, (3, 0%nat)); (2%nat, (1, 3%nat))] 4
                 vector_empty vector_empty zero_stats in
  (forall i j e e', qmap app !! i = Some e -> qmap app !! j = Some e' ->
                    (i < j)%nat -> (e.1 < e'.1)%nat) /\
  Forall (fun e => (e.1 < 3)%nat /\ 0 <= e.2.1 < two64 /\ (e.2.2 <= 3)%nat) (qmap app).
Proof.
  intros app.
  apply (X3_map_invariants ["tx-3.tx_packets"; "link"; "rx-1.rx_bytes"] app).
  vm_compute. reflexivity.
Defined.

(** ** build_queue_map: how it can end *)

Lemma scan_name_defined (name : string) (b : buffer) (i : nat) :
  scan_name name = Undefined b i -> False.
Proof.
  unfold scan_name. intros H.
  destruct (negb _); [discriminate|].
  destruct (find "." 3 name) as [dot|]; [|discriminate].
  unfold substr at 1 in H. destruct (3 <=? String.length name)%nat;
    cbn [mbind result_bind] in H; [|discriminate].
  destruct (stoi _) as [[n eon]|e|b' i'] eqn:Hs; cbn [mbind result_bind] in H.
  - destruct (eon <? _)%nat; [discriminate|].
    destruct (find "_" (dot + 3) name) as [under|]; [|discriminate].
    unfold substr_from, substr in H.
    destruct (under + 1 <=? String.length name)%nat; discriminate.
  - discriminate.
  - unfold stoi in Hs.
    destruct (match drop_chars _ _ with String "-" _ => _ | _ => _ end) as [neg sg].
    destruct (digit_run _ 0) as [v nd].
    destruct (nd =? 0)%nat; [discriminate|].
    destruct ((_ <? INT_MIN) || _); discriminate.
Qed.

Lemma build_from_defined (names : list string) :
  forall (i : nat) (app : EthQApp) (b : buffer) (j : nat),
    build_from i names app = Undefined b j -> False.
Proof.
  induction names as [|name rest IH]; intros i app b j H; [discriminate|].
  cbn [build_from] in H. unfold build_queue_map_body at 1 in H.
  destruct (scan_name name) as [r|e|b' j'] eqn:Hs; cbn [mbind result_bind] in H.
  - destruct r as [[queue offset]|]; cbn [mbind result_bind] in H; eapply IH; exact H.
  - discriminate.
  - eapply scan_name_defined. exact Hs.
Qed.

(** X4. Whatever the names and the state it starts from, [build_queue_map]
    either returns, or ends with one of the two exceptions of [std::stoi]
    ([invalid_argument] or [out_of_range], both with the text "stoi"); it
    never subscripts out of bounds and throws nothing else. *)
Theorem X4_build_queue_map_outcomes (names : list string) (app : EthQApp) :
  (exists app', build_queue_map names app = Ok app') \/
  build_queue_map names app = Throw (invalid_argument "stoi") \/
  build_queue_map names app = Throw (out_of_range "stoi").
Proof.
  destruct (build_queue_map names app) as [app'|e|b i] eqn:E.
  - left. eauto.
  - right. destruct (build_queue_map_throw _ _ _ E) as [-> | ->]; auto.
  - exfalso. rewrite build_queue_map_unfold in E. eapply build_from_defined. exact E.
Qed.

(** X5. When every name converts, [build_queue_map] on a fresh application
    returns, and the map holds under each position [i] exactly what the
    loop body computes for [names[i]] alone: the entry of a name does not
    depend on the other names, and a name that does not match leaves no
    entry. [prev] and [delta] are still empty. *)
Theorem X5_entries_by_position (names : list string) :
  Forall scans names ->
  exists app,
    build_queue_map names EthQApp_new = Ok app /\
    (forall i,
        map_find i (qmap app)
        = match names !! i with
          | Some name => match scan_name name with Ok (Some e) => Some e | _ => None end
          | None => None
          end) /\
    prev app = vector_empty /\ delta app = vector_empty.
Proof.
  intros Hs. eexists. split; [apply build_queue_map_ok; exact Hs|].
  split; [|split; reflexivity].
  intros i. cbn [qmap]. rewrite map_find_entries_from. cbn [Nat.leb].
  rewrite Nat.sub_0_r. reflexivity.
Qed.

Lemma X5_entries_by_position_witness :
  exists app,
    build_queue_map ["tx-0.tx_bytes"; "link_down_events"; "rx-1x.rx_bytes"] EthQApp_new
    = Ok app /\
    (forall i,
        map_find i (qmap app)
        = match ["tx-0.tx_bytes"; "link_down_events"; "rx-1x.rx_bytes"] !! i with
          | Some name => match scan_name name with Ok (Some e) => Some e | _ => None end
          | None => None
          end) /\
    prev app = vector_empty /\ delta app = vector_empty.
Proof.
  apply (X5_entries_by_position ["tx-0.tx_bytes"; "link_down_events"; "rx-1x.rx_bytes"]).
  repeat constructor; eexists; vm_compute; reflexivity.
Defined.

(** X6. The loop stops at the first name on which [std::stoi] throws: when
    the names before it convert, [build_queue_map] ends with that exception,
    whatever state it started from and whatever names follow. *)
Theorem X6_first_failure_ends_loop (pre post : list string) (name : string)
    (app : EthQApp) (e : exn) :
  Forall scans pre ->
  scan_name name = Throw e ->
  build_queue_map (pre ++ name :: post) app = Throw e.
Proof.
  intros Hpre Hn. rewrite build_queue_map_unfold. apply build_from_throw; assumption.
Qed.

Lemma X6_first_failure_ends_loop_witness :
  build_queue_map (["tx-0.tx_bytes"; "link"] ++ "rx-.rx_bytes" :: ["rx-1.rx_bytes"])
    EthQApp_new
  = Throw (invalid_argument "stoi").
Proof.
  apply (X6_first_failure_ends_loop ["tx-0.tx_bytes"; "link"] ["rx-1.rx_bytes"]
           "rx-.rx_bytes" EthQApp_new (invalid_argument "stoi")).
  - repeat constructor; eexists; vm_compute; reflexivity.
  - vm_compute. reflexivity.
Defined.

(** ** build_queue_map: names of the expected form *)

Lemma prefix_nil (s : string) : String.prefix "" s = true.
Proof. destruct s; reflexivity. Qed.

Lemma append_cons (c : ascii) (a b : string) : String c a +:+ b = String c (a +:+ b).
Proof. reflexivity. Qed.

Lemma prefix_cons (a b : ascii) (p s : string) :
  String.prefix (String a p) (String b s)
  = if ascii_dec a b then String.prefix p s else false.
Proof. reflexivity. Qed.

Lemma index_0_cons (p : string) (b : ascii) (s : string) :
  String.index 0 p (String b s)
  = if String.prefix p (String b s) then Some 0%nat
    else match String.index 0 p s with Some n => Some (S n) | None => None end.
Proof. reflexivity. Qed.

Lemma index_S_cons (n : nat) (p : string) (b : ascii) (s : string) :
  String.index (S n) p (String b s)
  = match String.index n p s with Some n => Some (S n) | None => None end.
Proof. reflexivity. Qed.

Lemma prefix_append (p s : string) : String.prefix p (p +:+ s) = true.
Proof.
  induction p as [|a p IH]; [apply prefix_nil|].
  rewrite append_cons, prefix_cons. destruct (ascii_dec a a); [exact IH|congruence].
Qed.

Lemma append_nil (s : string) : s +:+ "" = s.
Proof. induction s as [|c s IH]; [reflexivity|]. rewrite append_cons, IH. reflexivity. Qed.

Lemma append_assoc3 (a b c : string) : (a +:+ b) +:+ c = a +:+ (b +:+ c).
Proof.
  induction a as [|x a IH]; [reflexivity|]. rewrite !append_cons, IH. reflexivity.
Qed.

Lemma index_skip (pre p s : string) :
  String.index (String.length pre) p (pre +:+ s)
  = (fun m => (String.length pre + m)%nat) <$> String.index 0 p s.
Proof.
  induction pre as [|c pre IH].
  - change ("" +:+ s) with s. change (String.length "") with 0%nat.
    destruct (String.index 0 p s); reflexivity.
  - rewrite append_cons. change (String.length (String c pre)) with (S (String.length pre)).
    rewrite index_S_cons, IH. destruct (String.index 0 p s); reflexivity.
Qed.

Lemma index_head (c : ascii) (s : string) :
  String.index 0 (String c "") (String c s) = Some 0%nat.
Proof.
  rewrite index_0_cons, prefix_cons.
  destruct (ascii_dec c c); [|congruence]. rewrite prefix_nil. reflexivity.
Qed.

Lemma index_after_digits (ds rest : string) :
  all_digits ds = true ->
  String.index 0 "." (ds +:+ String "." rest) = Some (String.length ds).
Proof.
  induction ds as [|c ds IH]; intros Hd.
  - apply index_head.
  - cbn [all_digits] in Hd. apply andb_prop in Hd. destruct Hd as [Hc Hd].
    rewrite append_cons, index_0_cons, prefix_cons.
    destruct (ascii_dec "." c) as [<-|_]; [discriminate Hc|].
    rewrite (IH Hd). reflexivity.
Qed.

Lemma substring_skip (pre s : string) (n : nat) :
  String.substring (String.length pre) n (pre +:+ s) = String.substring 0 n s.
Proof. induction pre as [|c pre IH]; [reflexivity|]. exact IH. Qed.

Lemma substring_prefix (a b : string) :
  String.substring 0 (String.length a) (a +:+ b) = a.
Proof.
  induction a as [|c a IH]; [destruct b; reflexivity|].
  rewrite append_cons. change (String.length (String c a)) with (S (String.length a)).
  change (String.substring 0 (S (String.length a)) (String c (a +:+ b)))
    with (String c (String.substring 0 (String.length a) (a +:+ b))).
  rewrite IH. reflexivity.
Qed.

Lemma substring_all (s : string) : String.substring 0 (String.length s) s = s.
Proof. rewrite <- (append_nil s) at 2. apply substring_prefix. Qed.

(** The loop body on a name "<rx-|tx->digits.ww_kind". *)
Lemma scan_name_canonical (pfx ds w kind : string) :
  pfx = "rx-" \/ pfx = "tx-" ->
  ds <> "" -> all_digits ds = true -> (digit_run ds 0).1 <= INT_MAX ->
  String.length w = 2%nat ->
  scan_name (pfx +:+ ds +:+ "." +:+ w +:+ "_" +:+ kind)
  = Ok (Some ((digit_run ds 0).1,
              ((if bool_decide (pfx = "rx-") then 1 else 0)
               + (if bool_decide (kind = "bytes") then 2 else 0))%nat)).
Proof.
  intros Hpfx Hne Hd Hmax Hw.
  assert (Hlen : String.length pfx = 3%nat) by (destruct Hpfx as [-> | ->]; reflexivity).
  set (name := pfx +:+ ds +:+ "." +:+ w +:+ "_" +:+ kind).
  assert (Hrx : String.prefix "rx-" name = bool_decide (pfx = "rx-")).
  { destruct Hpfx as [-> | ->].
    - rewrite bool_decide_eq_true_2 by reflexivity. apply prefix_append.
    - rewrite bool_decide_eq_false_2 by discriminate.
      destruct (String.prefix "rx-" name) eqn:E; [|reflexivity].
      apply prefix_rx_tx in E. unfold name in E. rewrite prefix_append in E. discriminate. }
  assert (Hany : String.prefix "rx-" name || String.prefix "tx-" name = true).
  { destruct Hpfx as [-> | ->]; unfold name; rewrite prefix_append;
      [reflexivity|apply orb_true_r]. }
  assert (Hdot : find "." 3 name = Some (3 + String.length ds)%nat).
  { unfold find, name. rewrite <- Hlen. rewrite index_skip.
    change ("." +:+ w +:+ "_" +:+ kind) with (String "." (w +:+ "_" +:+ kind)).
    rewrite index_after_digits by exact Hd. reflexivity. }
  assert (Htmp : String.substring 3 (String.length ds) name = ds).
  { unfold name. rewrite <- Hlen. rewrite substring_skip. apply substring_prefix. }
  assert (Hsplit : name = (pfx +:+ ds +:+ "." +:+ w) +:+ String "_" kind).
  { unfold name. rewrite !append_assoc3. reflexivity. }
  assert (Hpre : String.length (pfx +:+ ds +:+ "." +:+ w) = (3 + String.length ds + 3)%nat).
  { rewrite !length_append. rewrite Hlen, Hw. cbn [String.length]. lia. }
  assert (Hunder : find "_" (3 + String.length ds + 3) name
                   = Some (3 + String.length ds + 3)%nat).
  { unfold find. rewrite Hsplit, <- Hpre, index_skip, index_head.
    cbn [fmap option_fmap option_map]. f_equal. lia. }
  assert (Hsplit2 : name = ((pfx +:+ ds +:+ "." +:+ w) +:+ "_") +:+ kind).
  { unfold name. rewrite !append_assoc3. reflexivity. }
  assert (Hpre2 : String.length ((pfx +:+ ds +:+ "." +:+ w) +:+ "_")
                  = (3 + String.length ds + 3 + 1)%nat).
  { rewrite length_append, Hpre. reflexivity. }
  assert (Hnlen : String.length name = (3 + String.length ds + 3 + 1 + String.length kind)%nat).
  { rewrite Hsplit2, length_append, Hpre2. reflexivity. }
  assert (Hkind : String.substring (3 + String.length ds + 3 + 1)
                    (String.length name - (3 + String.length ds + 3 + 1)) name = kind).
  { rewrite Hnlen.
    replace (3 + String.length ds + 3 + 1 + String.length kind
             - (3 + String.length ds + 3 + 1))%nat with (String.length kind) by lia.
    rewrite Hsplit2, <- Hpre2, substring_skip. apply substring_all. }
  pose proof (digit_run_nonneg ds 0 Hd ltac:(lia)) as Hmin.
  unfold scan_name. rewrite !find_flag, Hany, Hdot. cbn [negb].
  unfold substr at 1. destruct (Nat.leb_spec 3 (String.length name)); [|lia].
  replace (3 + String.length ds - 3)%nat with (String.length ds) by lia.
  rewrite Htmp. cbn [mbind result_bind].
  rewrite <- (append_nil ds) at 1. rewrite stoi_digits_then by (try assumption; reflexivity).
  cbn [mbind result_bind]. rewrite Nat.ltb_irrefl, Hunder.
  unfold substr_from, substr.
  destruct (Nat.leb_spec (3 + String.length ds + 3 + 1) (String.length name)); [|lia].
  rewrite Hkind. cbn [mbind result_bind]. rewrite Hrx.
  rewrite wrap64_small by (unfold INT_MAX, two64 in *; lia).
  destruct (bool_decide (pfx = "rx-")), (bool_decide (kind = "bytes")); reflexivity.
Qed.

Lemma qcount_of_elem (m : queue_map_t) :
  forall (q0 : Z) (id : nat) (queue : Z) (offset : nat),
    (id, (queue, offset)) ∈ m -> wrap64 (queue + 1) <= qcount_of m q0.
Proof.
  induction m as [|[k [q o]] m IH]; intros q0 id queue offset H; [inversion H|].
  apply elem_of_cons in H. cbn [qcount_of]. destruct H as [H|H].
  - injection H as -> -> ->.
    pose proof (qcount_of_ge m (Z.max (wrap64 (q + 1)) q0)). lia.
  - eapply IH. exact H.
Qed.

(** X7. A name of the form prefix, digits, '.', two characters, '_', kind
    (such as "tx-12.tx_bytes"), with prefix "rx-" or "tx-" and the digits
    within [int], is entered under its position: the queue is the decimal
    value of the digits, the slot is 1 for "rx-" and 0 for "tx-" plus 2 when
    the kind is "bytes", and [qcount] is above the queue. The two characters
    after the dot play no part: the direction is taken from the prefix. *)
Theorem X7_canonical_name_recorded (names : list string) (app : EthQApp) (i : nat)
    (pfx ds w kind : string) :
  build_queue_map names EthQApp_new = Ok app ->
  names !! i = Some (pfx +:+ ds +:+ "." +:+ w +:+ "_" +:+ kind) ->
  pfx = "rx-" \/ pfx = "tx-" ->
  ds <> "" -> all_digits ds = true -> (digit_run ds 0).1 <= INT_MAX ->
  String.length w = 2%nat ->
  map_find i (qmap app)
  = Some ((digit_run ds 0).1,
          ((if bool_decide (pfx = "rx-") then 1 else 0)
           + (if bool_decide (kind = "bytes") then 2 else 0))%nat) /\
  (digit_run ds 0).1 < qcount app.
Proof.
  intros Hb Hn Hpfx Hne Hd Hmax Hw.
  pose proof (scan_name_canonical pfx ds w kind Hpfx Hne Hd Hmax Hw) as Hs.
  apply build_queue_map_inv in Hb. destruct Hb as [_ ->]. cbn [qmap qcount].
  assert (Hf : map_find i (entries_from 0 names)
               = Some ((digit_run ds 0).1,
                       ((if bool_decide (pfx = "rx-") then 1 else 0)
                        + (if bool_decide (kind = "bytes") then 2 else 0))%nat)).
  { rewrite map_find_entries_from. cbn [Nat.leb]. rewrite Nat.sub_0_r, Hn, Hs. reflexivity. }
  split; [exact Hf|].
  apply map_find_elem in Hf.
  pose proof (qcount_of_elem _ 0 _ _ _ Hf) as Hq.
  pose proof (digit_run_nonneg ds 0 Hd ltac:(lia)) as Hmin.
  rewrite wrap64_small in Hq by (unfold INT_MAX, two64 in *; lia). lia.
Qed.

Lemma X7_canonical_name_recorded_witness :
  let app := App [(1%nat, (12, 3%nat))] 13 vector_empty vector_empty zero_stats in
  map_find 1 (qmap app)
  = Some ((digit_run "12" 0).1,
          ((if bool_decide ("rx-" = "rx-") then 1 else 0)
           + (if bool_decide ("bytes" = "bytes") then 2 else 0))%nat) /\
  (digit_run "12" 0).1 < qcount app.
Proof.
  intros app.
  apply (X7_canonical_name_recorded ["link"; "rx-12.tx_bytes"] app 1 "rx-" "12" "tx" "bytes").
  - vm_compute. reflexivity.
  - reflexivity.
  - left. reflexivity.
  - discriminate.
  - reflexivity.
  - vm_compute. discriminate.
  - reflexivity.
Defined.

(** X8. A name with the prefix whose text between position 3 and the first
    '.' is digits within [int] followed by at least one character that is
    not a digit leaves no entry under its position. *)
Theorem X8_trailing_characters_skipped (names : list string) (app : EthQApp) (i : nat)
    (name ds rest : string) (dot : nat) :
  build_queue_map names EthQApp_new = Ok app ->
  names !! i = Some name ->
  String.prefix "rx-" name || String.prefix "tx-" name = true ->
  find "." 3 name = Some dot ->
  String.substring 3 (dot - 3) name = ds +:+ rest ->
  ds <> "" -> all_digits ds = true ->
  rest <> "" -> no_leading_digit rest = true ->
  (digit_run ds 0).1 <= INT_MAX ->
  map_find i (qmap app) = None.
Proof.
  intros Hb Hn Hp Hdot Htmp Hds Hd Hrest Hr Hmax.
  pose proof (scan_name_trailing name ds rest dot Hp Hdot Htmp Hds Hd Hrest Hr Hmax) as Hs.
  apply build_queue_map_inv in Hb. destruct Hb as [_ ->]. cbn [qmap].
  rewrite map_find_entries_from. cbn [Nat.leb]. rewrite Nat.sub_0_r, Hn, Hs. reflexivity.
Qed.

Lemma X8_trailing_characters_skipped_witness :
  map_find 0 (qmap (App [(1%nat, (0, 3%nat))] 1 vector_empty vector_empty zero_stats))
  = None.
Proof.
  apply (X8_trailing_characters_skipped ["rx-2x.rx_bytes"; "rx-0.rx_bytes"]
           (App [(1%nat, (0, 3%nat))] 1 vector_empty vector_empty zero_stats)
           0 "rx-2x.rx_bytes" "2" "x" 5).
  - vm_compute. reflexivity.
  - reflexivity.
  - vm_compute. reflexivity.
  - vm_compute. reflexivity.
  - vm_compute. reflexivity.
  - discriminate.
  - reflexivity.
  - discriminate.
  - reflexivity.
  - vm_compute. discriminate.
Defined.

(** ** get_stats: what the projection holds *)

Lemma last_source_none (m : queue_map_t) (queue : Z) (slot : nat) :
  (forall id, (id, (queue, slot)) ∉ m) -> last_source m queue slot = None.
Proof.
  induction m as [|[k [q o]] m IH]; intros H; [reflexivity|].
  cbn [last_source]. rewrite IH.
  - case_bool_decide as Hd; [|reflexivity].
    destruct Hd as [-> ->]. exfalso. apply (H k). apply list_elem_of_here.
  - intros id Hin. apply (H id). apply list_elem_of_further. exact Hin.
Qed.

Lemma last_source_unique (m : queue_map_t) (queue : Z) (slot id : nat) :
  (id, (queue, slot)) ∈ m ->
  (forall id', (id', (queue, slot)) ∈ m -> id' = id) ->
  last_source m queue slot = Some id.
Proof.
  induction m as [|[k [q o]] m IH]; intros Hin Huniq; [inversion Hin|].
  cbn [last_source].
  destruct (last_source m queue slot) as [id'|] eqn:E.
  - apply last_source_elem in E. f_equal. apply Huniq.
    apply list_elem_of_further. exact E.
  - apply elem_of_cons in Hin. destruct Hin as [Hin|Hin].
    + injection Hin as -> -> ->. rewrite bool_decide_eq_true_2 by auto. reflexivity.
    + assert (Hs : @None nat = Some id).
      { apply IH; [exact Hin|].
        intros id' H'. apply Huniq. apply list_elem_of_further. exact H'. }
      discriminate Hs.
Qed.

(** X9. For a map and a raw array that fit each other, [get_stats] returns
    [qcount] rows; a slot that no entry of the map names is 0, and a slot
    named by the entries of one source position only holds the raw counter
    of that position. *)
Theorem X9_projection_cells (raw : list Z) (app : EthQApp) :
  fits (length raw) (Z.to_nat (qcount app)) (qmap app) ->
  exists stats,
    get_stats raw app = Ok stats /\
    size stats = Z.to_nat (qcount app) /\
    (forall (queue : Z) (slot : nat),
        0 <= queue -> (slot <= 3)%nat ->
        (forall id, (id, (queue, slot)) ∉ qmap app) ->
        cell (elems stats) (Z.to_nat queue) slot = 0) /\
    (forall (queue : Z) (slot id : nat) (v : Z),
        (id, (queue, slot)) ∈ qmap app ->
        (forall id', (id', (queue, slot)) ∈ qmap app -> id' = id) ->
        raw !! id = Some v ->
        cell (elems stats) (Z.to_nat queue) slot = v).
Proof.
  intros Hfit. destruct (get_stats_ok raw app Hfit) as (stats & Hst & Hsize & Hcell).
  exists stats. split; [exact Hst|]. split; [exact Hsize|]. split.
  - intros queue slot Hq Hs Hnone. rewrite Hcell by assumption.
    rewrite last_source_none by exact Hnone. reflexivity.
  - intros queue slot id v Hin Huniq Hv.
    unfold fits in Hfit. rewrite Forall_forall in Hfit.
    destruct (Hfit _ Hin) as (_ & Hq & _ & Hs). cbn [fst snd] in Hq, Hs.
    rewrite Hcell by assumption.
    rewrite (last_source_unique _ _ _ _ Hin Huniq), Hv. reflexivity.
Qed.

Lemma X9_projection_cells_witness :
  let app := App [(0%nat, (0, 0%nat)); (3%nat, (1, 3%nat))] 2
                 vector_empty vector_empty zero_stats in
  let raw := [100; 200; 7; 9] in
  exists stats,
    get_stats raw app = Ok stats /\
    size stats = 2%nat /\
    (forall (queue : Z) (slot : nat),
        0 <= queue -> (slot <= 3)%nat ->
        (forall id, (id, (queue, slot)) ∉ qmap app) ->
        cell (elems stats) (Z.to_nat queue) slot = 0) /\
    (forall (queue : Z) (slot id : nat) (v : Z),
        (id, (queue, slot)) ∈ qmap app ->
        (forall id', (id', (queue, slot)) ∈ qmap app -> id' = id) ->
        raw !! id = Some v ->
        cell (elems stats) (Z.to_nat queue) slot = v).
Proof.
  intros app raw.
  apply (X9_projection_cells raw app).
  unfold fits. repeat constructor; cbn; lia.
Defined.

(** X10. The projection reads the raw array at the recorded source positions
    only: two raw arrays that agree on every key of the map give the same
    outcome of [get_stats], whatever else they hold and however long they
    are. *)
Theorem X10_projection_reads_keys_only (raw raw' : list Z) (app : EthQApp) :
  (forall id e, (id, e) ∈ qmap app -> raw !! id = raw' !! id) ->
  get_stats raw app = get_stats raw' app.
Proof.
  unfold get_stats. generalize (vector_n (Z.to_nat (qcount app))).
  induction (qmap app) as [|[id [queue offset]] m IH]; intros results H; [reflexivity|].
  cbn [for_each]. rewrite !get_stats_body_unfold.
  assert (Hsub : subscript BufRaw raw id = subscript BufRaw raw' id).
  { unfold subscript. rewrite (H id (queue, offset)) by apply list_elem_of_here.
    reflexivity. }
  rewrite Hsub.
  destruct (subscript BufRaw raw' id) as [v| |]; cbn [mbind result_bind];
    try reflexivity.
  destruct (vector_set_count BufResults results (Z.to_nat queue) offset v) as [r| |];
    cbn [mbind result_bind]; try reflexivity.
  apply IH. intros id' e' Hin. apply (H id' e'). apply list_elem_of_further. exact Hin.
Qed.

Lemma X10_projection_reads_keys_only_witness :
  let app := App [(0%nat, (0, 0%nat)); (2%nat, (0, 2%nat))] 1
                 vector_empty vector_empty zero_stats in
  get_stats [100; 5; 300] app = get_stats [100; 77; 300; 12] app.
Proof.
  intros app.
  apply (X10_projection_reads_keys_only [100; 5; 300] [100; 77; 300; 12] app).
  intros id e Hin. cbn [qmap app] in Hin. rewrite !elem_of_cons in Hin.
  destruct Hin as [Hin|[Hin|Hin]]; [| |inversion Hin]; injection Hin as -> _; reflexivity.
Defined.

(** ** get_stats: how it can end *)

Lemma project_outcomes (raw : list Z) (m : queue_map_t) :
  forall (results : stats_list_t),
    (exists stats, for_each m (get_stats_body raw) results = Ok stats /\
                   size stats = size results) \/
    (exists i, for_each m (get_stats_body raw) results = Undefined BufRaw i /\
               (length raw <= i)%nat) \/
    (exists i, for_each m (get_stats_body raw) results = Undefined BufResults i /\
               (size results <= i)%nat) \/
    (exists i, for_each m (get_stats_body raw) results = Undefined BufCounts i /\
               (4 <= i)%nat).
Proof.
  induction m as [|[id [queue offset]] m IH]; intros results.
  - left. exists results. split; reflexivity.
  - cbn [for_each]. rewrite get_stats_body_unfold.
    destruct (raw !! id) as [v|] eqn:Ev.
    2:{ apply lookup_ge_None_1 in Ev. rewrite (subscript_undefined _ _ _ Ev).
        right. left. exists id. split; [reflexivity|exact Ev]. }
    rewrite (subscript_ok _ _ _ _ Ev). cbn [mbind result_bind].
    unfold vector_set_count, vector_get.
    destruct (elems results !! Z.to_nat queue) as [s|] eqn:Es.
    2:{ apply lookup_ge_None_1 in Es. rewrite (subscript_undefined _ _ _ Es).
        right. right. left. exists (Z.to_nat queue). split; [reflexivity|exact Es]. }
    rewrite (subscript_ok _ _ _ _ Es). cbn [mbind result_bind].
    destruct (Nat.le_gt_cases offset 3) as [Ho|Ho].
    + rewrite counts_set_ok by exact Ho. cbn [mbind result_bind].
      specialize (IH (Vector (<[Z.to_nat queue := set_count s offset v]> (elems results))
                             (capacity results))).
      unfold size in *. cbn [elems] in IH. rewrite length_insert in IH. exact IH.
    + right. right. right. exists offset. split; [|lia].
      slot_cases offset; try lia. reflexivity.
Qed.

(** X11. Whatever the map, the count and the raw array, [get_stats] throws
    nothing: it returns [qcount] rows, or it runs into an out of bounds
    subscript of the raw array (at an index not below its length), of the
    result rows (at an index not below [qcount]), or of the four counters
    of a row (at an index above 3). *)
Theorem X11_get_stats_outcomes (raw : list Z) (app : EthQApp) :
  (exists stats, get_stats raw app = Ok stats /\ size stats = Z.to_nat (qcount app)) \/
  (exists i, get_stats raw app = Undefined BufRaw i /\ (length raw <= i)%nat) \/
  (exists i, get_stats raw app = Undefined BufResults i /\
             (Z.to_nat (qcount app) <= i)%nat) \/
  (exists i, get_stats raw app = Undefined BufCounts i /\ (4 <= i)%nat).
Proof.
  unfold get_stats.
  pose proof (project_outcomes raw (qmap app) (vector_n (Z.to_nat (qcount app)))) as H.
  unfold size, vector_n in H. cbn [elems] in H. rewrite length_replicate in H. exact H.
Qed.

Lemma for_each_app {A St : Type} (body : A -> St -> result St) (l1 l2 : list A) :
  forall (s : St),
    for_each (l1 ++ l2) body s = (s' ← for_each l1 body s; for_each l2 body s').
Proof.
  induction l1 as [|x l1 IH]; intros s; [reflexivity|].
  cbn [for_each app]. destruct (body x s) as [s1| |]; cbn [mbind result_bind];
    [apply IH|reflexivity|reflexivity].
Qed.

(** X12. When the entries before some entry of the map fit the raw array and
    that entry's source position [id] is not below the length of the array,
    the tick's projection subscripts [raw[id]] outside the array: the
    outcome is that undefined read, no exception. *)
Theorem X12_first_short_position (raw : list Z) (app : EthQApp)
    (m1 m2 : queue_map_t) (id : nat) (e : queue_entry_t) :
  qmap app = m1 ++ (id, e) :: m2 ->
  fits (length raw) (Z.to_nat (qcount app)) m1 ->
  (length raw <= id)%nat ->
  get_stats raw app = Undefined BufRaw id.
Proof.
  intros Hm Hfit Hid. unfold get_stats. rewrite Hm, for_each_app.
  destruct (project_spec raw (Z.to_nat (qcount app)) m1
              (replicate (Z.to_nat (qcount app)) zero_stats)) as (r & Hr & _ & _).
  { rewrite length_replicate. exact Hfit. }
  unfold vector_n. rewrite Hr. cbn [mbind result_bind for_each].
  destruct e as [queue offset]. rewrite get_stats_body_unfold.
  rewrite subscript_undefined by exact Hid. reflexivity.
Qed.

Lemma X12_first_short_position_witness :
  get_stats [7; 8; 9]
    (App [(0%nat, (0, 0%nat)); (5%nat, (0, 1%nat)); (6%nat, (0, 2%nat))] 1
         vector_empty vector_empty zero_stats)
  = Undefined BufRaw 5.
Proof.
  apply (X12_first_short_position [7; 8; 9]
           (App [(0%nat, (0, 0%nat)); (5%nat, (0, 1%nat)); (6%nat, (0, 2%nat))] 1
                vector_empty vector_empty zero_stats)
           [(0%nat, (0, 0%nat))] [(6%nat, (0, 2%nat))] 5 (0, 1%nat)).
  - reflexivity.
  - unfold fits. repeat constructor; cbn; lia.
  - cbn. lia.
Defined.

(** ** get_deltas: rows, totals and the rotation of the samples *)

Lemma to_int64_small (y : Z) : - 2 ^ 63 <= y < 2 ^ 63 -> to_int64 y = y.
Proof.
  intros H. unfold to_int64, wrap64, two64.
  destruct (Z.le_gt_cases 0 y) as [Hp|Hn].
  - rewrite Z.mod_small by lia. destruct (Z.ltb_spec y (2 ^ 63)); lia.
  - replace (y mod 2 ^ 64) with (y + 2 ^ 64).
    + destruct (Z.ltb_spec (y + 2 ^ 64) (2 ^ 63)); lia.
    + symmetry. rewrite <- (Z.mod_add _ 1) by lia. rewrite Z.mul_1_l.
      apply Z.mod_small. lia.
Qed.

Lemma wrap64_add_l (a b : Z) : wrap64 (wrap64 a + b) = wrap64 (a + b).
Proof. unfold wrap64. apply Zplus_mod_idemp_l. Qed.

Lemma wrap64_add (a b : Z) : wrap64 (a + b) = wrap64 (wrap64 a + wrap64 b).
Proof. unfold wrap64. apply Zplus_mod. Qed.

Lemma count_of_delta_row (s p : queuestats_t) (j : nat) :
  count_of (delta_row s p) j = wrap64 (count_of s j - count_of p j).
Proof.
  transitivity (wrap64 (diff s p j)).
  - slot_cases j; reflexivity.
  - rewrite diff_spec. apply wrap64_to_int64.
Qed.

Lemma count_of_add_row (t s p : queuestats_t) (j : nat) :
  count_of (add_row t s p) j = wrap64 (count_of t j + diff s p j).
Proof. slot_cases j; reflexivity. Qed.

(** One tick on buffers that hold a row per queue. *)
Lemma get_deltas_cells (raw : list Z) (app : EthQApp) :
  fits (length raw) (Z.to_nat (qcount app)) (qmap app) ->
  ready app ->
  exists (stats : stats_list_t) (dl : list queuestats_t),
    get_stats raw app = Ok stats /\
    size stats = Z.to_nat (qcount app) /\
    get_deltas raw app
    = Ok (App (qmap app) (qcount app) stats (Vector dl (capacity (delta app)))
              (totals_upto (Z.to_nat (qcount app)) (elems stats) (elems (prev app)))) /\
    length dl = size (delta app) /\
    (forall i j, (i < Z.to_nat (qcount app))%nat ->
                 cell dl i j
                 = wrap64 (cell (elems stats) i j - cell (elems (prev app)) i j)) /\
    (forall i, (Z.to_nat (qcount app) <= i)%nat -> dl !! i = elems (delta app) !! i).
Proof.
  intros Hfit [Hprev Hdelta].
  destruct (get_stats_ok raw app Hfit) as (stats & Hst & Hsize & _).
  destruct (get_deltas_ok raw app stats Hst Hprev Hdelta) as (dl & Hget & Hlen & Hrows & Hrest).
  exists stats, dl. repeat split; try assumption.
  intros i j Hi. unfold size in *.
  destruct (lookup_lt_is_Some_2 (elems stats) i ltac:(lia)) as [s Hs].
  destruct (lookup_lt_is_Some_2 (elems (prev app)) i ltac:(lia)) as [p Hp].
  unfold cell. rewrite (Hrows i s p Hi Hs Hp), Hs, Hp. apply count_of_delta_row.
Qed.

Lemma sum_upto_ext (k : nat) (f g : nat -> Z) :
  (forall i, (i < k)%nat -> f i = g i) -> sum_upto k f = sum_upto k g.
Proof.
  induction k as [|k IH]; intros H; [reflexivity|]. cbn [sum_upto].
  rewrite IH by (intros i Hi; apply H; lia). rewrite (H k) by lia. reflexivity.
Qed.

Lemma totals_upto_sum (stats prv : list queuestats_t) (j : nat) :
  forall (k : nat),
    (k <= length stats)%nat -> (k <= length prv)%nat -> (j <= 3)%nat ->
    count_of (totals_upto k stats prv) j
    = wrap64 (sum_upto k (fun i => to_int64 (cell stats i j - cell prv i j))).
Proof.
  induction k as [|k IH]; intros Hs Hp Hj.
  - slot_cases j; reflexivity.
  - destruct (lookup_lt_is_Some_2 stats k ltac:(lia)) as [s Es].
    destruct (lookup_lt_is_Some_2 prv k ltac:(lia)) as [p Ep].
    cbn [totals_upto sum_upto]. rewrite Es, Ep.
    rewrite count_of_add_row.
    rewrite IH by (try assumption; lia).
    rewrite wrap64_add_l. f_equal. f_equal.
    unfold cell. rewrite Es, Ep, diff_spec. reflexivity.
Qed.

(** X13. On buffers that hold a row per queue, a tick sets each of the four
    totals to the sum over the queues of the deltas it has just stored, read
    as signed 64-bit values, modulo 2^64. The totals start from zero in each
    tick: the previous totals play no part. *)
Theorem X13_totals_sum_the_rows (raw : list Z) (app : EthQApp) :
  fits (length raw) (Z.to_nat (qcount app)) (qmap app) ->
  ready app ->
  exists app',
    get_deltas raw app = Ok app' /\
    forall j, (j <= 3)%nat ->
      count_of (total app') j
      = wrap64 (sum_upto (Z.to_nat (qcount app))
                  (fun i => to_int64 (cell (elems (delta app')) i j))).
Proof.
  intros Hfit Hready.
  destruct (get_deltas_cells raw app Hfit Hready)
    as (stats & dl & Hst & Hsize & Hget & Hlen & Hcells & _).
  eexists. split; [exact Hget|]. intros j Hj. cbn [total delta elems].
  destruct Hready as [Hprev _]. unfold size in *.
  rewrite totals_upto_sum by (try assumption; lia). f_equal.
  apply sum_upto_ext. intros i Hi. rewrite (Hcells i j Hi). rewrite to_int64_wrap64.
  reflexivity.
Qed.

Lemma X13_totals_sum_the_rows_witness :
  let app := App [(0%nat, (0, 0%nat)); (1%nat, (1, 0%nat))] 2
                 (Vector [QueueStats 10 0 0 0; QueueStats 50 0 0 0] 2) (vector_n 2)
                 (QueueStats 1 2 3 4) in
  exists app',
    get_deltas [15; 40] app = Ok app' /\
    forall j, (j <= 3)%nat ->
      count_of (total app') j
      = wrap64 (sum_upto 2 (fun i => to_int64 (cell (elems (delta app')) i j))).
Proof.
  intros app.
  apply (X13_totals_sum_the_rows [15; 40] app).
  - unfold fits. repeat constructor; cbn; lia.
  - split; cbn; lia.
Defined.

(** X14. A tick on buffers that hold a row per queue succeeds and leaves
    them so: the map and the count are unchanged, [prev] becomes the current
    sample of [qcount] rows, [delta] keeps its size and capacity, and the
    rows of [delta] from [qcount] on are untouched. *)
Theorem X14_tick_keeps_buffers_ready (raw : list Z) (app : EthQApp) :
  fits (length raw) (Z.to_nat (qcount app)) (qmap app) ->
  ready app ->
  exists (stats : stats_list_t) (app' : EthQApp),
    get_stats raw app = Ok stats /\
    get_deltas raw app = Ok app' /\
    qmap app' = qmap app /\ qcount app' = qcount app /\
    prev app' = stats /\ size (prev app') = Z.to_nat (qcount app) /\
    size (delta app') = size (delta app) /\
    capacity (delta app') = capacity (delta app) /\
    (forall i, (Z.to_nat (qcount app) <= i)%nat ->
               elems (delta app') !! i = elems (delta app) !! i) /\
    ready app'.
Proof.
  intros Hfit Hready.
  destruct (get_deltas_cells raw app Hfit Hready)
    as (stats & dl & Hst & Hsize & Hget & Hlen & _ & Hrest).
  eexists stats, _. split; [exact Hst|]. split; [exact Hget|].
  cbn [qmap qcount prev delta elems capacity]. unfold ready, size in *.
  cbn [qcount prev delta elems].
  destruct Hready as [_ Hd]. repeat split; try assumption; lia.
Qed.

Lemma X14_tick_keeps_buffers_ready_witness :
  let app := App [(0%nat, (0, 0%nat)); (1%nat, (1, 0%nat))] 2
                 (vector_n 2) (vector_n 3) zero_stats in
  exists (stats : stats_list_t) (app' : EthQApp),
    get_stats [15; 40] app = Ok stats /\
    get_deltas [15; 40] app = Ok app' /\
    qmap app' = qmap app /\ qcount app' = qcount app /\
    prev app' = stats /\ size (prev app') = 2%nat /\
    size (delta app') = size (delta app) /\
    capacity (delta app') = capacity (delta app) /\
    (forall i, (2 <= i)%nat -> elems (delta app') !! i = elems (delta app) !! i) /\
    ready app'.
Proof.
  intros app.
  apply (X14_tick_keeps_buffers_ready [15; 40] app).
  - unfold fits. repeat constructor; cbn; lia.
  - split; cbn; lia.
Defined.

(** Two ticks in a row on buffers that hold a row per queue. *)
Lemma two_ticks (raw1 raw2 : list Z) (app : EthQApp) :
  fits (length raw1) (Z.to_nat (qcount app)) (qmap app) ->
  fits (length raw2) (Z.to_nat (qcount app)) (qmap app) ->
  ready app ->
  exists (s1 s2 : stats_list_t) (app1 app2 : EthQApp),
    get_stats raw1 app = Ok s1 /\ get_stats raw2 app = Ok s2 /\
    get_deltas raw1 app = Ok app1 /\ get_deltas raw2 app1 = Ok app2 /\
    prev app2 = s2 /\
    forall i j, (i < Z.to_nat (qcount app))%nat ->
      cell (elems (delta app1)) i j
      = wrap64 (cell (elems s1) i j - cell (elems (prev app)) i j) /\
      cell (elems (delta app2)) i j
      = wrap64 (cell (elems s2) i j - cell (elems s1) i j).
Proof.
  intros Hfit1 Hfit2 Hready.
  destruct (get_deltas_cells raw1 app Hfit1 Hready)
    as (s1 & dl1 & Hst1 & Hsize1 & Hget1 & Hlen1 & Hcells1 & _).
  set (app1 := App (qmap app) (qcount app) s1 (Vector dl1 (capacity (delta app)))
                   (totals_upto (Z.to_nat (qcount app)) (elems s1) (elems (prev app)))) in *.
  assert (Hready1 : ready app1).
  { destruct Hready as [_ Hd]. unfold ready, size in *. cbn [app1 qcount prev delta elems].
    split; lia. }
  destruct (get_deltas_cells raw2 app1 Hfit2 Hready1)
    as (s2 & dl2 & Hst2 & Hsize2 & Hget2 & Hlen2 & Hcells2 & _).
  eexists s1, s2, app1, _. split; [exact Hst1|]. split; [exact Hst2|].
  split; [exact Hget1|]. split; [exact Hget2|]. split; [reflexivity|].
  intros i j Hi. cbn [delta elems app1]. split; [apply Hcells1; exact Hi|].
  rewrite (Hcells2 i j Hi). reflexivity.
Qed.

(** X15. Of two ticks in a row the second stores, for every queue and slot,
    the current counter minus the counter of the first tick's sample modulo
    2^64: what [prev] held before the first tick plays no part, and [prev]
    ends as the sample of the second tick. *)
Theorem X15_second_tick_against_first (raw1 raw2 : list Z) (app : EthQApp) :
  fits (length raw1) (Z.to_nat (qcount app)) (qmap app) ->
  fits (length raw2) (Z.to_nat (qcount app)) (qmap app) ->
  ready app ->
  exists (s1 s2 : stats_list_t) (app1 app2 : EthQApp),
    get_stats raw1 app = Ok s1 /\ get_stats raw2 app = Ok s2 /\
    get_deltas raw1 app = Ok app1 /\ get_deltas raw2 app1 = Ok app2 /\
    prev app2 = s2 /\
    forall i j, (i < Z.to_nat (qcount app))%nat ->
      cell (elems (delta app2)) i j = wrap64 (cell (elems s2) i j - cell (elems s1) i j).
Proof.
  intros Hfit1 Hfit2 Hready.
  destruct (two_ticks raw1 raw2 app Hfit1 Hfit2 Hready)
    as (s1 & s2 & app1 & app2 & H1 & H2 & H3 & H4 & H5 & Hc).
  exists s1, s2, app1, app2. repeat split; try assumption.
  intros i j Hi. apply Hc. exact Hi.
Qed.

Lemma X15_second_tick_against_first_witness :
  let app := App [(0%nat, (0, 0%nat)); (1%nat, (0, 2%nat))] 1
                 (Vector [QueueStats 1 2 3 4] 1) (vector_n 1) zero_stats in
  exists (s1 s2 : stats_list_t) (app1 app2 : EthQApp),
    get_stats [100; 200] app = Ok s1 /\ get_stats [150; 260] app = Ok s2 /\
    get_deltas [100; 200] app = Ok app1 /\ get_deltas [150; 260] app1 = Ok app2 /\
    prev app2 = s2 /\
    forall i j, (i < 1)%nat ->
      cell (elems (delta app2)) i j = wrap64 (cell (elems s2) i j - cell (elems s1) i j).
Proof.
  intros app.
  apply (X15_second_tick_against_first [100; 200] [150; 260] app).
  - unfold fits. repeat constructor; cbn; lia.
  - unfold fits. repeat constructor; cbn; lia.
  - split; cbn; lia.
Defined.

(** X16. The deltas of two ticks in a row add up: for every queue and slot,
    the sum of the two stored deltas, read as signed 64-bit values, equals
    modulo 2^64 the counter of the second sample minus the counter [prev]
    held before the first tick. Nothing is lost or counted twice between
    ticks. *)
Theorem X16_deltas_add_up (raw1 raw2 : list Z) (app : EthQApp) :
  fits (length raw1) (Z.to_nat (qcount app)) (qmap app) ->
  fits (length raw2) (Z.to_nat (qcount app)) (qmap app) ->
  ready app ->
  exists (s2 : stats_list_t) (app1 app2 : EthQApp),
    get_stats raw2 app = Ok s2 /\
    get_deltas raw1 app = Ok app1 /\ get_deltas raw2 app1 = Ok app2 /\
    forall i j, (i < Z.to_nat (qcount app))%nat ->
      wrap64 (to_int64 (cell (elems (delta app1)) i j)
              + to_int64 (cell (elems (delta app2)) i j))
      = wrap64 (cell (elems s2) i j - cell (elems (prev app)) i j).
Proof.
  intros Hfit1 Hfit2 Hready.
  destruct (two_ticks raw1 raw2 app Hfit1 Hfit2 Hready)
    as (s1 & s2 & app1 & app2 & H1 & H2 & H3 & H4 & H5 & Hc).
  exists s2, app1, app2. repeat split; try assumption.
  intros i j Hi. destruct (Hc i j Hi) as [-> ->].
  rewrite wrap64_add, !to_int64_wrap64, !wrap64_to_int64, <- wrap64_add.
  f_equal. lia.
Qed.

Lemma X16_deltas_add_up_witness :
  let app := App [(0%nat, (0, 0%nat)); (1%nat, (0, 2%nat))] 1
                 (Vector [QueueStats 90 0 300 0] 1) (vector_n 1) zero_stats in
  exists (s2 : stats_list_t) (app1 app2 : EthQApp),
    get_stats [150; 260] app = Ok s2 /\
    get_deltas [100; 200] app = Ok app1 /\ get_deltas [150; 260] app1 = Ok app2 /\
    forall i j, (i < 1)%nat ->
      wrap64 (to_int64 (cell (elems (delta app1)) i j)
              + to_int64 (cell (elems (delta app2)) i j))
      = wrap64 (cell (elems s2) i j - cell (elems (prev app)) i j).
Proof.
  intros app.
  apply (X16_deltas_add_up [100; 200] [150; 260] app).
  - unfold fits. repeat constructor; cbn; lia.
  - unfold fits. repeat constructor; cbn; lia.
  - split; cbn; lia.
Defined.

(** ** redraw *)

Lemma redraw_loop (dv : stats_list_t) :
  forall (k i : nat),
    (i <= size dv)%nat ->
    for_from i k
      (fun i (rows : list queuestats_t) =>
         q ← vector_get BufDelta dv i; Ok (rows ++ [q]))
      (take i (elems dv))
    = if decide (i + k <= size dv)%nat then Ok (take (i + k) (elems dv))
      else Undefined BufDelta (size dv).
Proof.
  unfold size. induction k as [|k IH]; intros i Hi.
  - cbn [for_from]. rewrite Nat.add_0_r. rewrite decide_True by exact Hi. reflexivity.
  - cbn [for_from]. unfold vector_get.
    destruct (decide (i < length (elems dv))%nat) as [Hlt|Hge].
    + destruct (lookup_lt_is_Some_2 (elems dv) i Hlt) as [q Hq].
      rewrite (subscript_ok _ _ _ _ Hq). cbn [mbind result_bind].
      rewrite <- (take_S_r _ _ _ Hq). rewrite IH by lia.
      replace (S i + k)%nat with (i + S k)%nat by lia. reflexivity.
    + assert (i = length (elems dv)) by lia. subst i.
      rewrite subscript_undefined by lia. cbn [mbind result_bind].
      rewrite decide_False by lia. reflexivity.
Qed.

Lemma redraw_frame (app : EthQApp) :
  redraw app
  = if decide (Z.to_nat (qcount app) <= size (delta app))%nat
    then Ok (EvFrame (take (Z.to_nat (qcount app)) (elems (delta app))) (total app))
    else Undefined BufDelta (size (delta app)).
Proof.
  unfold redraw, for_loop.
  pose proof (redraw_loop (delta app) (Z.to_nat (qcount app)) 0 ltac:(lia)) as H.
  rewrite take_0 in H. cbn [Nat.add] in H. rewrite H.
  destruct (decide _); reflexivity.
Qed.

(** X17. [redraw] shows one row per queue, in queue order, and then the
    totals: when [delta] holds at least [qcount] rows the frame is the first
    [qcount] rows of [delta] followed by [total]; when it holds fewer, the
    loop subscripts [delta] outside, at the index equal to its size. *)
Theorem X17_redraw_rows (app : EthQApp) :
  redraw app
  = if decide (Z.to_nat (qcount app) <= size (delta app))%nat
    then Ok (EvFrame (take (Z.to_nat (qcount app)) (elems (delta app))) (total app))
    else Undefined BufDelta (size (delta app)).
Proof.
  unfold redraw, for_loop.
  pose proof (redraw_loop (delta app) (Z.to_nat (qcount app)) 0 ltac:(lia)) as H.
  rewrite take_0 in H. cbn [Nat.add] in H. rewrite H.
  destruct (decide _); reflexivity.
Qed.

(** ** The polling loop *)

Lemma redraw_ready (app : EthQApp) :
  ready app ->
  redraw app
  = Ok (EvFrame (take (Z.to_nat (qcount app)) (elems (delta app))) (total app)).
Proof.
  intros [_ Hd]. rewrite redraw_frame. rewrite decide_True by exact Hd. reflexivity.
Qed.

Lemma ticks_step (n : nat) (rows : list queuestats_t) (t : queuestats_t) (tr : list event) :
  ticks (EvTick n :: EvFrame rows t :: tr) = S (ticks tr).
Proof. reflexivity. Qed.

Lemma poll_step (ethtool : Ethtool) (app : EthQApp) (n : nat) :
  steady ethtool app -> ready app ->
  exists raw app',
    stats ethtool n = Ok raw /\
    get_deltas raw app = Ok app' /\
    redraw app'
    = Ok (EvFrame (take (Z.to_nat (qcount app')) (elems (delta app'))) (total app')) /\
    steady ethtool app' /\ ready app'.
Proof.
  intros Hsteady Hready. destruct (Hsteady n) as (raw & Hraw & Hfit).
  destruct (get_deltas_cells raw app Hfit Hready)
    as (stats & dl & Hst & Hsize & Hget & Hlen & _ & _).
  eexists raw, _. split; [exact Hraw|]. split; [exact Hget|].
  assert (Hready' : ready (App (qmap app) (qcount app) stats
                              (Vector dl (capacity (delta app)))
                              (totals_upto (Z.to_nat (qcount app)) (elems stats)
                                           (elems (prev app))))).
  { destruct Hready as [_ Hd]. unfold ready, size in *. cbn [qcount prev delta elems].
    split; lia. }
  split; [apply redraw_ready; exact Hready'|]. split; [|exact Hready'].
  intros k. exact (Hsteady k).
Qed.

Lemma poll_no_quit (ethtool : Ethtool) (keys : list (option ascii)) :
  forall (n : nat) (app : EthQApp),
    steady ethtool app -> ready app ->
    Forall (fun key => is_quit key = false) keys ->
    exists tr, poll ethtool keys n app = (tr, None) /\ ticks tr = length keys.
Proof.
  induction keys as [|key keys IH]; intros n app Hsteady Hready Hkeys.
  - exists []. split; reflexivity.
  - inversion Hkeys as [|? ? Hkey Hrest]; subst.
    destruct (poll_step ethtool app n Hsteady Hready)
      as (raw & app' & Hraw & Hget & Hdraw & Hsteady' & Hready').
    destruct (IH (S n) app' Hsteady' Hready' Hrest) as (tr & Hp & Ht).
    cbn [poll]. rewrite Hraw. cbn [mbind result_bind]. rewrite Hget.
    cbn [mbind result_bind]. rewrite Hdraw. cbn [mbind result_bind].
    rewrite Hkey, Hp. eexists. split; [reflexivity|].
    rewrite ticks_step, Ht. reflexivity.
Qed.

Lemma poll_quit (ethtool : Ethtool) (pre : list (option ascii)) :
  forall (n : nat) (app : EthQApp) (key : option ascii),
    steady ethtool app -> ready app ->
    Forall (fun key => is_quit key = false) pre ->
    is_quit key = true ->
    exists tr,
      ticks tr = S (length pre) /\
      forall post, poll ethtool (pre ++ key :: post) n app = (tr, Some (Ok 0)).
Proof.
  induction pre as [|k pre IH]; intros n app key Hsteady Hready Hpre Hkey.
  - destruct (poll_step ethtool app n Hsteady Hready)
      as (raw & app' & Hraw & Hget & Hdraw & _ & _).
    eexists. split; [|intros post].
    2:{ cbn [poll List.app]. rewrite Hraw. cbn [mbind result_bind]. rewrite Hget.
        cbn [mbind result_bind]. rewrite Hdraw. cbn [mbind result_bind].
        rewrite Hkey. reflexivity. }
    reflexivity.
  - inversion Hpre as [|? ? Hk Hrest]; subst.
    destruct (poll_step ethtool app n Hsteady Hready)
      as (raw & app' & Hraw & Hget & Hdraw & Hsteady' & Hready').
    destruct (IH (S n) app' key Hsteady' Hready' Hrest Hkey) as (tr & Ht & Hp).
    eexists. split; [|intros post].
    2:{ cbn [poll List.app]. rewrite Hraw. cbn [mbind result_bind]. rewrite Hget.
        cbn [mbind result_bind]. rewrite Hdraw. cbn [mbind result_bind].
        rewrite Hk, (Hp post). reflexivity. }
    rewrite ticks_step, Ht. reflexivity.
Qed.

Lemma run_seed (ethtool : Ethtool) (app : EthQApp) :
  steady ethtool app ->
  (Z.to_nat (qcount app) <= size (delta app))%nat ->
  exists first,
    (forall keys,
        run ethtool keys app
        = poll ethtool keys 1
            (App (qmap app) (qcount app) first (delta app) (total app))) /\
    steady ethtool (App (qmap app) (qcount app) first (delta app) (total app)) /\
    ready (App (qmap app) (qcount app) first (delta app) (total app)).
Proof.
  intros Hsteady Hd. destruct (Hsteady 0%nat) as (raw & Hraw & Hfit).
  destruct (get_stats_ok raw app Hfit) as (first & Hst & Hsize & _).
  exists first. split; [|split].
  - intros keys. unfold run. rewrite Hraw. cbn [mbind result_bind]. rewrite Hst.
    reflexivity.
  - intros k. exact (Hsteady k).
  - unfold ready. cbn [qcount prev delta]. split; [lia|exact Hd].
Qed.

(** X18. With a statistics source whose every array fits the map and a
    [delta] of at least [qcount] rows, [run] seeds [prev] with one sample,
    then runs one tick per pending key until the first 'q' or 'Q': it
    returns 0 in that tick, one tick after the last key that was not a quit
    key, and the keys after it are never looked at. *)
Theorem X18_run_ends_at_first_quit (ethtool : Ethtool) (app : EthQApp)
    (pre : list (option ascii)) (key : option ascii) :
  steady ethtool app ->
  (Z.to_nat (qcount app) <= size (delta app))%nat ->
  Forall (fun key => is_quit key = false) pre ->
  is_quit key = true ->
  exists tr,
    ticks tr = S (length pre) /\
    forall post, run ethtool (pre ++ key :: post) app = (tr, Some (Ok 0)).
Proof.
  intros Hsteady Hd Hpre Hkey.
  destruct (run_seed ethtool app Hsteady Hd) as (first & Hrun & Hs & Hr).
  destruct (poll_quit ethtool pre 1 _ key Hs Hr Hpre Hkey) as (tr & Ht & Hp).
  exists tr. split; [exact Ht|]. intros post. rewrite Hrun. apply Hp.
Qed.

Lemma X18_run_ends_at_first_quit_witness :
  let ethtool := {| stringset := Ok ["tx-0.tx_packets"];
                    stats := fun n => Ok [Z.of_nat (10 * n)] |} in
  let app := App [(0%nat, (0, 0%nat))] 1 vector_empty (vector_n 1) zero_stats in
  exists tr,
    ticks tr = 3%nat /\
    forall post,
      run ethtool ([None; Some "x"%char] ++ Some "Q"%char :: post) app
      = (tr, Some (Ok 0)).
Proof.
  intros ethtool app.
  apply (X18_run_ends_at_first_quit ethtool app [None; Some "x"%char] (Some "Q"%char)).
  - intros n. eexists. split; [reflexivity|]. unfold fits. repeat constructor; cbn; lia.
  - cbn. lia.
  - repeat constructor.
  - reflexivity.
Defined.

(** X19. Under the same conditions, as long as no pending key is 'q' or 'Q'
    the loop goes on: after one tick per key it has not returned. *)
Theorem X19_run_goes_on_without_quit (ethtool : Ethtool) (app : EthQApp)
    (keys : list (option ascii)) :
  steady ethtool app ->
  (Z.to_nat (qcount app) <= size (delta app))%nat ->
  Forall (fun key => is_quit key = false) keys ->
  exists tr, run ethtool keys app = (tr, None) /\ ticks tr = length keys.
Proof.
  intros Hsteady Hd Hkeys.
  destruct (run_seed ethtool app Hsteady Hd) as (first & Hrun & Hs & Hr).
  destruct (poll_no_quit ethtool keys 1 _ Hs Hr Hkeys) as (tr & Hp & Ht).
  exists tr. split; [rewrite Hrun; exact Hp|exact Ht].
Qed.

Lemma X19_run_goes_on_without_quit_witness :
  let ethtool := {| stringset := Ok ["tx-0.tx_packets"];
                    stats := fun n => Ok [Z.of_nat (10 * n)] |} in
  let app := App [(0%nat, (0, 0%nat))] 1 vector_empty (vector_n 1) zero_stats in
  exists tr,
    run ethtool [None; Some "x"%char; None] app = (tr, None) /\ ticks tr = 3%nat.
Proof.
  intros ethtool app.
  apply (X19_run_goes_on_without_quit ethtool app [None; Some "x"%char; None]).
  - intros n. eexists. split; [reflexivity|]. unfold fits. repeat constructor; cbn; lia.
  - cbn. lia.
  - repeat constructor.
Defined.

Lemma poll_returns (ethtool : Ethtool) (keys : list (option ascii)) :
  forall (n : nat) (app : EthQApp) (tr : list event) (res : Z),
    poll ethtool keys n app = (tr, Some (Ok res)) ->
    res = 0 /\ Exists (fun key => is_quit key = true) keys.
Proof.
  induction keys as [|key keys IH]; intros n app tr res H; [discriminate|].
  cbn [poll] in H.
  destruct (stats ethtool n ≫= _) as [[app' frame]|e|b i]; try discriminate.
  destruct (is_quit key) eqn:Hk.
  - injection H as _ <-. split; [reflexivity|]. apply Exists_cons_hd. exact Hk.
  - destruct (poll ethtool keys (S n) app') as [tr' r] eqn:Hp.
    injection H as _ ->. destruct (IH _ _ _ _ Hp) as [-> Hex].
    split; [reflexivity|]. apply Exists_cons_tl. exact Hex.
Qed.

(** X20. [run] returns through the quit key only: whenever it returns a
    status, the status is 0 and one of the keys it was given is 'q' or 'Q'.
    Every other way out of the loop is an exception or an out of bounds
    subscript. *)
Theorem X20_run_returns_zero_on_quit (ethtool : Ethtool) (keys : list (option ascii))
    (app : EthQApp) (tr : list event) (res : Z) :
  run ethtool keys app = (tr, Some (Ok res)) ->
  res = 0 /\ Exists (fun key => key = Some "q"%char \/ key = Some "Q"%char) keys.
Proof.
  intros H. unfold run in H.
  destruct (stats ethtool 0%nat ≫= _) as [first|e|b i]; try discriminate.
  destruct (poll_returns _ _ _ _ _ _ H) as [-> Hex]. split; [reflexivity|].
  eapply Exists_impl; [exact Hex|]. intros [ch|] Hq; [|discriminate].
  cbn [is_quit] in Hq. apply orb_prop in Hq.
  destruct Hq as [Hq|Hq]; apply bool_decide_eq_true_1 in Hq; subst; auto.
Qed.

Lemma X20_run_returns_zero_on_quit_witness :
  0 = 0 /\
  Exists (fun key => key = Some "q"%char \/ key = Some "Q"%char) [None; Some "q"%char].
Proof.
  apply (X20_run_returns_zero_on_quit
           {| stringset := Ok ["tx-0.tx_packets"]; stats := fun n => Ok [Z.of_nat n] |}
           [None; Some "q"%char]
           (App [(0%nat, (0, 0%nat))] 1 vector_empty (vector_n 1) zero_stats)
           [EvTick 1; EvFrame [QueueStats 1 0 0 0] (QueueStats 1 0 0 0);
            EvTick 2; EvFrame [QueueStats 1 0 0 0] (QueueStats 1 0 0 0)] 0).
  vm_compute. reflexivity.
Defined.

(** ** handleArgs and main *)

(** X21. Any number of arguments other than one is a usage error: [main]
    prints "error: usage: ethq <interface>" and returns [EXIT_FAILURE],
    whatever the device and the keys; nothing is opened and no tick runs. *)
Theorem X21_usage_error (open : world) (argv : list string)
    (keys : list (option ascii)) :
  length argv <> 2%nat ->
  handleArgs open argv EthQApp_new = Throw (runtime_error "usage: ethq <interface>") /\
  main open argv keys
  = ([EvStderr "error: usage: ethq <interface>"], Exit EXIT_FAILURE).
Proof.
  intros Hlen.
  assert (Hh : handleArgs open argv EthQApp_new
               = Throw (runtime_error "usage: ethq <interface>")).
  { destruct argv as [|a [|b [|c argv]]]; try reflexivity. cbn in Hlen. congruence. }
  split; [exact Hh|]. unfold main. rewrite Hh. reflexivity.
Qed.

Lemma X21_usage_error_witness :
  handleArgs (fun _ => Throw (runtime_error "no such device")) ["ethq"] EthQApp_new
  = Throw (runtime_error "usage: ethq <interface>") /\
  main (fun _ => Throw (runtime_error "no such device")) ["ethq"] [Some "q"%char]
  = ([EvStderr "error: usage: ethq <interface>"], Exit EXIT_FAILURE).
Proof.
  apply (X21_usage_error (fun _ => Throw (runtime_error "no such device")) ["ethq"]
           [Some "q"%char]).
  cbn. lia.
Defined.

(** X22. An exception while the statistics source is set up (the
    constructor of [Ethtool], the name list, or a name on which [std::stoi]
    throws) leaves [handleArgs] and reaches the handler of [main]: it
    prints "error: " followed by the text of the exception and returns
    [EXIT_FAILURE]; no tick runs. *)
Theorem X22_startup_exception (open : world) (prog ifname : string)
    (keys : list (option ascii)) (e : exn) :
  open ifname = Throw e \/
  (exists ethtool, open ifname = Ok ethtool /\ stringset ethtool = Throw e) \/
  (exists ethtool names,
      open ifname = Ok ethtool /\ stringset ethtool = Ok names /\
      build_queue_map names EthQApp_new = Throw e) ->
  handleArgs open [prog; ifname] EthQApp_new = Throw e /\
  main open [prog; ifname] keys = ([EvStderr ("error: " +:+ what e)], Exit EXIT_FAILURE).
Proof.
  intros H.
  assert (Hh : handleArgs open [prog; ifname] EthQApp_new = Throw e).
  { unfold handleArgs.
    destruct H as [H|[(eth & Ho & Hs)|(eth & names & Ho & Hs & Hb)]].
    - rewrite H. reflexivity.
    - rewrite Ho. cbn [mbind result_bind]. rewrite Hs. reflexivity.
    - rewrite Ho. cbn [mbind result_bind]. rewrite Hs.
      cbn [mbind result_bind]. rewrite Hb. reflexivity. }
  split; [exact Hh|]. unfold main. rewrite Hh. reflexivity.
Qed.

Lemma X22_startup_exception_witness :
  handleArgs (fun _ => Ok {| stringset := Throw (runtime_error "ETHTOOL_GSTRINGS");
                            stats := fun _ => Ok [] |})
    ["ethq"; "eth9"] EthQApp_new
  = Throw (runtime_error "ETHTOOL_GSTRINGS") /\
  main (fun _ => Ok {| stringset := Throw (runtime_error "ETHTOOL_GSTRINGS");
                       stats := fun _ => Ok [] |})
    ["ethq"; "eth9"] [None]
  = ([EvStderr ("error: " +:+ what (runtime_error "ETHTOOL_GSTRINGS"))],
     Exit EXIT_FAILURE).
Proof.
  apply (X22_startup_exception
           (fun _ => Ok {| stringset := Throw (runtime_error "ETHTOOL_GSTRINGS");
                           stats := fun _ => Ok [] |})
           "ethq" "eth9" [None] (runtime_error "ETHTOOL_GSTRINGS")).
  right. left. eexists. split; reflexivity.
Defined.

(** X23. A startup that succeeds was given exactly one argument, opened the
    device it names and built the map from its name list; it discovered at
    least one queue, and it leaves [prev] empty and [delta] with room
    reserved for [qcount] rows and no row. *)
Theorem X23_startup_postcondition (open : world) (argv : list string)
    (ethtool : Ethtool) (app : EthQApp) :
  handleArgs open argv EthQApp_new = Ok (ethtool, app) ->
  exists prog ifname names built,
    argv = [prog; ifname] /\
    open ifname = Ok ethtool /\
    stringset ethtool = Ok names /\
    build_queue_map names EthQApp_new = Ok built /\
    qmap app = qmap built /\ qcount app = qcount built /\
    0 < qcount app /\
    prev app = vector_empty /\
    size (delta app) = 0%nat /\
    capacity (delta app) = Z.to_nat (qcount app).
Proof.
  intros H. pose proof (handleArgs_delta _ _ _ _ H) as (Hq & Hd & Hc & Hp).
  unfold handleArgs in H.
  destruct argv as [|prog [|ifname [|x argv]]]; try discriminate.
  apply bind_ok in H. destruct H as (eth & Ho & H).
  apply bind_ok in H. destruct H as (names & Hn & H).
  apply bind_ok in H. destruct H as (built & Hb & H).
  destruct (qcount built =? 0); [discriminate|]. injection H as -> <-.
  exists prog, ifname, names, built. cbn [qmap qcount] in *.
  repeat split; try assumption; reflexivity.
Qed.

Lemma X23_startup_postcondition_witness :
  let ethtool := {| stringset := Ok ["link"; "rx-1.rx_bytes"];
                    stats := fun _ => Ok [0; 0] |} in
  let app := App [(1%nat, (1, 3%nat))] 2 vector_empty (Vector [] 2) zero_stats in
  exists prog ifname names built,
    ["ethq"; "eth0"] = [prog; ifname] /\
    (fun _ : string => Ok ethtool) ifname = Ok ethtool /\
    stringset ethtool = Ok names /\
    build_queue_map names EthQApp_new = Ok built /\
    qmap app = qmap built /\ qcount app = qcount built /\
    0 < qcount app /\
    prev app = vector_empty /\
    size (delta app) = 0%nat /\
    capacity (delta app) = Z.to_nat (qcount app).
Proof.
  intros ethtool app.
  apply (X23_startup_postcondition (fun _ => Ok ethtool) ["ethq"; "eth0"] ethtool app).
  vm_compute. reflexivity.
Defined.

(** ** A statistics source that fails during the session *)






(** X25. After a startup that succeeded, an exception of [stats()] in the
    seeding read of [run] or in the first tick is not reported by [main]:
    the inner handler throws a [std::exception_ptr] that no handler
    catches, and the program ends in [std::terminate], with nothing written
    to standard error and at most the one tick begun. *)
Theorem X25_exception_in_run_terminates (open : world) (argv : list string)
    (keys : list (option ascii)) (ethtool : Ethtool) (app : EthQApp) (e : exn) :
  handleArgs open argv EthQApp_new = Ok (ethtool, app) ->
  stats ethtool 0%nat = Throw e \/
  (exists raw first,
      stats ethtool 0%nat = Ok raw /\ get_stats raw app = Ok first /\
      stats ethtool 1%nat = Throw e /\ keys <> []) ->
  exists tr,
    main open argv keys = (tr, Terminate) /\
    (forall line, EvStderr line ∉ tr) /\
    (ticks tr <= 1)%nat.
Proof.
  intros Hh H. unfold main. rewrite Hh. unfold app_call, run.
  destruct H as [Hs|(raw & first & Hraw & Hfirst & Hs & Hkeys)].
  - rewrite Hs. exists []. split; [reflexivity|]. split; [|vm_compute; repeat constructor].
    intros line Hin. inversion Hin.
  - rewrite Hraw. cbn [mbind result_bind]. rewrite Hfirst.
    destruct keys as [|key keys]; [congruence|].
    cbn [poll]. rewrite Hs. exists [EvTick 1]. split; [reflexivity|].
    split; [|vm_compute; repeat constructor].
    intros line Hin. apply list_elem_of_singleton in Hin. discriminate.
Qed.

Lemma X25_exception_in_run_terminates_witness :
  let ethtool := {| stringset := Ok ["tx-0.tx_packets"];
                    stats := fun n => if (n <? 1)%nat then Ok [7]
                                      else Throw (runtime_error "ioctl") |} in
  exists tr,
    main (fun _ => Ok ethtool) ["ethq"; "eth0"] [None; Some "q"%char] = (tr, Terminate) /\
    (forall line, EvStderr line ∉ tr) /\
    (ticks tr <= 1)%nat.
Proof.
  intros ethtool.
  apply (X25_exception_in_run_terminates (fun _ => Ok ethtool) ["ethq"; "eth0"]
           [None; Some "q"%char] ethtool
           (App [(0%nat, (0, 0%nat))] 1 vector_empty (Vector [] 1) zero_stats)
           (runtime_error "ioctl")).
  - vm_compute. reflexivity.
  - right. eexists _, _. split; [reflexivity|]. split; [vm_compute; reflexivity|].
    split; [reflexivity|discriminate].
Defined.
